(** * agentic-mcp-client dashboard: job lifecycle and session log reader

    A shallow embedding of

    - [dashboard/app/api/jobs/route.ts]            (POST, GET, runJob, updateJobStatus),
    - [dashboard/app/api/jobs/[jobId]/route.ts]    (GET, DELETE, isProcessRunning),
    - [dashboard/lib/sessions.ts]                  (getSessionData, getAllSessions),

    followed by the properties of the specification that concern them.

    JavaScript values are embedded as JSON trees, [undefined] as [None];
    exceptions are explicit; the job store [global.jobsStore] is a finite
    map from job ids to records, threaded through every handler; the
    operating system (process table, temp files, child process launch) is
    an oracle handed to each handler. *)

From Stdlib Require Import ZArith List String Ascii Bool Lia Sorting.Sorted Sorting.Permutation.
From stdpp Require Import gmap strings list.

Set Warnings "-register-all".
Local Open Scope string_scope.
Local Open Scope Z_scope.

(** ** JavaScript values *)

Module JS.

(** What [JSON.parse] can return. Numbers are the integer-valued ones; the
    code under study never computes with a number, it only tests values for
    truthiness and passes them on. An object holds its own properties in
    insertion order, keys distinct. *)
Inductive json : Type :=
| JNull
| JBool (b : bool)
| JNum (n : Z)
| JStr (s : string)
| JArr (items : list json)
| JObj (fields : list (string * json)).

(** A JavaScript value: [None] is [undefined]. *)
Definition jsval : Type := option json.
Definition undefined : jsval := None.

(** [ToBoolean]. *)
Definition truthy (v : jsval) : bool :=
  match v with
  | None => false
  | Some JNull => false
  | Some (JBool b) => b
  | Some (JNum n) => negb (n =? 0)
  | Some (JStr s) => negb (String.eqb s "")
  | Some (JArr _) => true
  | Some (JObj _) => true
  end.

Fixpoint lookup_field (k : string) (fields : list (string * json)) : jsval :=
  match fields with
  | [] => None
  | (k', v) :: rest => if String.eqb k k' then Some v else lookup_field k rest
  end.

(** [v.k]. [None] stands for the [TypeError] raised on [null] and
    [undefined]; on the other primitives and on arrays the property names
    read by the code (none of them on a prototype) are [undefined]. *)
Definition member (v : jsval) (k : string) : option jsval :=
  match v with
  | None => None
  | Some JNull => None
  | Some (JObj fields) => Some (lookup_field k fields)
  | Some _ => Some undefined
  end.

(** [v?.k]. *)
Definition opt_member (v : jsval) (k : string) : jsval :=
  match member v k with
  | Some r => r
  | None => undefined
  end.

(** [v === 'lit']. *)
Definition is_str (v : jsval) (lit : string) : bool :=
  match v with
  | Some (JStr s) => String.eqb s lit
  | _ => false
  end.

(** [a || b]. *)
Definition js_or (a b : jsval) : jsval := if truthy a then a else b.

(** One digit of [n.toString(16)]. *)
Definition hex_digit (n : N) : ascii :=
  match n with
  | 0 => "0" | 1 => "1" | 2 => "2" | 3 => "3" | 4 => "4" | 5 => "5"
  | 6 => "6" | 7 => "7" | 8 => "8" | 9 => "9" | 10 => "a" | 11 => "b"
  | 12 => "c" | 13 => "d" | 14 => "e" | _ => "f"
  end%N%char.

End JS.

Import JS.

(** ** The job lifecycle manager *)

Module Jobs.

(** [types/job.ts], [JobStatus]. *)
Inductive Status : Type := pending | running | completed | failed | cancelled.

#[global] Instance Status_eq_dec : EqDecision Status.
Proof. solve_decision. Defined.

Record JobStatus : Type := mkJob {
  jobId : string;
  status : Status;
  createdAt : string;
  startedAt : option string;
  completedAt : option string;
  error : option string;
  pid : option Z;
  workdir : jsval
}.

Definition terminal (s : Status) : bool :=
  match s with
  | completed | failed | cancelled => true
  | pending | running => false
  end.

(** The object spreads [{...job, field: value}] of the two route files. *)
Definition spread_running (t : string) (j : JobStatus) : JobStatus :=
  mkJob (jobId j) running (createdAt j) (Some t) (completedAt j) (error j) (pid j) (workdir j).

Definition spread_completed (t : string) (j : JobStatus) : JobStatus :=
  mkJob (jobId j) completed (createdAt j) (startedAt j) (Some t) (error j) (pid j) (workdir j).

Definition spread_failed (msg t : string) (j : JobStatus) : JobStatus :=
  mkJob (jobId j) failed (createdAt j) (startedAt j) (Some t) (Some msg) (pid j) (workdir j).

Definition spread_cancelled (t : string) (j : JobStatus) : JobStatus :=
  mkJob (jobId j) cancelled (createdAt j) (startedAt j) (Some t) (error j) (pid j) (workdir j).

Definition set_workdir (d : jsval) (j : JobStatus) : JobStatus :=
  mkJob (jobId j) (status j) (createdAt j) (startedAt j) (completedAt j) (error j) (pid j) d.

Definition set_pid (p : Z) (j : JobStatus) : JobStatus :=
  mkJob (jobId j) (status j) (createdAt j) (startedAt j) (completedAt j) (error j) (Some p) (workdir j).

(** [global.jobsStore]: records are added by [POST] and never removed. *)
Abbreviation Store := (gmap string JobStatus).

(** *** The operating system, as the handlers see it *)

Inductive Signal : Type := SIG0 | SIGTERM.

(** Outcome of [process.kill(pid, signal)]: it returns, or it throws with
    the error code of the failed system call. *)
Inductive KillResult : Type := Delivered | ESRCH | EPERM.

Definition OS : Type := Z -> Signal -> KillResult.

(** The calls of [process.kill] a handler makes, in order. *)
Definition Trace : Type := list (Z * Signal).

(** [if (job.pid)]: a number is truthy unless it is [0]. *)
Definition pid_truthy (p : option Z) : bool :=
  match p with
  | Some n => negb (n =? 0)
  | None => false
  end.

(** [isProcessRunning], identical in both route files:
    [try { process.kill(pid, 0); return true; } catch (e) { return false; }] *)
Definition isProcessRunning (os : OS) (p : Z) : bool :=
  match os p SIG0 with
  | Delivered => true
  | ESRCH => false
  | EPERM => false
  end.

(** [updateJobStatus(jobId)] on the record [job = jobs[jobId]]. *)
Definition reconcile (os : OS) (now : string) (job : JobStatus) : JobStatus :=
  if decide (status job = running) then
    if pid_truthy (pid job) then
      if isProcessRunning os (default 0 (pid job)) then job
      else spread_completed now job
    else job
  else job.

Definition reconcile_trace (job : JobStatus) : Trace :=
  if decide (status job = running) then
    if pid_truthy (pid job) then [(default 0 (pid job), SIG0)] else []
  else [].

Definition updateJobStatus (os : OS) (now : string) (id : string) (jobs : Store)
  : Store * Trace :=
  match jobs !! id with
  | Some job => (<[id := reconcile os now job]> jobs, reconcile_trace job)
  | None => (jobs, [])
  end.

(** *** Launching the worker *)

(** What the launch meets outside the store: whether the temp directory and
    the two input files can be written ([mkdirSync], [writeFileSync] throw
    otherwise), and what [exec] does: it throws ([None]), or it returns a
    child process whose [pid] is a number or [undefined]. *)
Record SpawnEnv : Type := mkSpawnEnv {
  temp_files_ok : bool;
  exec_result : option (option Z);
  defaultProjectRoot : string
}.

(** [runJob(jobId, taskData, configData, workdir)]. The second component
    tells whether the call returned ([true]) or threw ([false]); the store
    keeps what was written before the exception. The exit callback handed
    to [exec] is [exec_callback] below; the log stream is not part of the
    store. *)
Definition runJob (id : string) (wd : jsval) (t_run : string) (env : SpawnEnv)
    (jobs : Store) : Store * bool :=
  let jobs1 := alter (spread_running t_run) id jobs in
  if temp_files_ok env then
    let projectRoot := js_or wd (Some (JStr (defaultProjectRoot env))) in
    let jobs2 := alter (set_workdir projectRoot) id jobs1 in
    match exec_result env with
    | None => (jobs2, false)
    | Some child_pid =>
        if pid_truthy child_pid
        then (alter (set_pid (default 0 child_pid)) id jobs2, true)
        else (jobs2, true)
    end
  else (jobs1, false).

(** The callback [(error) => { ... }] that [runJob] hands to [exec]; [err]
    is [error.message] when the worker failed, [None] when it exited with
    success. It runs once, some time after [runJob] returned, on a store
    that still holds the record (nothing deletes one). *)
Definition exec_callback (id : string) (err : option string) (now : string)
    (jobs : Store) : Store :=
  match err with
  | Some msg => alter (spread_failed msg now) id jobs
  | None => alter (spread_completed now) id jobs
  end.

(** *** [generateUUID] *)

(** [b.toString(16).padStart(2, '0')] for [b] in [0..255]. *)
Definition hex2 (b : Byte.byte) : string :=
  let n := Byte.to_N b in
  String (hex_digit (n / 16)) (String (hex_digit (n mod 16)) EmptyString).

(** [rnd i] is the [i]-th draw [Math.floor(Math.random() * 256)]. *)
Definition generateUUID (rnd : nat -> Byte.byte) : string :=
  String.concat "" (List.map (fun i => hex2 (rnd i)) (seq 0 16)).

(** *** The HTTP handlers *)

Inductive Body : Type :=
| JobBody (j : JobStatus)
| JobsBody (js : list JobStatus)
| ErrorBody (msg : string).

Record Response : Type := mkResponse { code : nat; body : Body }.

(** [POST /api/jobs]. [req] is the outcome of [await request.json()]
    ([None]: it threw). *)
Definition POST (req : option json) (rnd : nat -> Byte.byte) (t_post t_run : string)
    (env : SpawnEnv) (jobs : Store) : Response * Store :=
  let failure := mkResponse 500 (ErrorBody "Failed to submit job") in
  match req with
  | None => (failure, jobs)
  | Some b =>
    match member (Some b) "agent_worker_task" with
    | None => (failure, jobs)
    | Some task =>
      if negb (truthy task) || negb (truthy (opt_member (Some b) "config")) then
        (mkResponse 400
           (ErrorBody "Missing required fields: agent_worker_task and config"), jobs)
      else
        let id := generateUUID rnd in
        let jobs1 := <[id := mkJob id pending t_post None None None None undefined]> jobs in
        match runJob id (opt_member (Some b) "workdir") t_run env jobs1 with
        | (jobs2, true) =>
            match jobs2 !! id with
            | Some job => (mkResponse 201 (JobBody job), jobs2)
            | None => (failure, jobs2)
            end
        | (jobs2, false) => (failure, jobs2)
        end
    end
  end.

(** [GET /api/jobs]: every record goes through [updateJobStatus], which
    reads and writes that record only; the order of [Object.values] is not
    kept. *)
Definition GET_all (os : OS) (now : string) (jobs : Store) : Response * Store :=
  let jobs' := reconcile os now <$> jobs in
  (mkResponse 200 (JobsBody (snd <$> map_to_list jobs')), jobs').

Definition not_found : Response := mkResponse 404 (ErrorBody "Job not found").

(** [GET /api/jobs/[jobId]]. *)
Definition GET (id : string) (os : OS) (now : string) (jobs : Store)
  : Response * Store * Trace :=
  match jobs !! id with
  | None => (not_found, jobs, [])
  | Some _ =>
      let '(jobs', tr) := updateJobStatus os now id jobs in
      match jobs' !! id with
      | Some job => (mkResponse 200 (JobBody job), jobs', tr)
      | None => (not_found, jobs', tr)
      end
  end.

(** [DELETE /api/jobs/[jobId]]: [process.kill(pid)] sends [SIGTERM]. *)
Definition DELETE (id : string) (os : OS) (now : string) (jobs : Store)
  : Response * Store * Trace :=
  match jobs !! id with
  | None => (not_found, jobs, [])
  | Some job =>
      if decide (status job = running) then
        if pid_truthy (pid job) then
          let p := default 0 (pid job) in
          match os p SIGTERM with
          | Delivered =>
              let job' := spread_cancelled now job in
              (mkResponse 200 (JobBody job'), <[id := job']> jobs, [(p, SIGTERM)])
          | _ =>
              let '(jobs', tr) := updateJobStatus os now id jobs in
              match jobs' !! id with
              | Some job' => (mkResponse 200 (JobBody job'), jobs', (p, SIGTERM) :: tr)
              | None => (not_found, jobs', (p, SIGTERM) :: tr)
              end
          end
        else (mkResponse 200 (JobBody job), jobs, [])
      else (mkResponse 200 (JobBody job), jobs, [])
  end.

(** *** Histories of one store

    What can happen to the store, one event at a time: a request handled
    by one of the routes, or the exit callback of a launched worker. *)
Inductive Op : Type :=
| Submit (req : option json) (rnd : nat -> Byte.byte) (t_post t_run : string) (env : SpawnEnv)
| WorkerExit (id : string) (err : option string) (now : string)
| Cancel (id : string) (os : OS) (now : string)
| Query (id : string) (os : OS) (now : string)
| QueryAll (os : OS) (now : string).

Definition step (jobs : Store) (op : Op) : Store :=
  match op with
  | Submit req rnd t_post t_run env => snd (POST req rnd t_post t_run env jobs)
  | WorkerExit id err now => exec_callback id err now jobs
  | Cancel id os now => snd (fst (DELETE id os now jobs))
  | Query id os now => snd (fst (GET id os now jobs))
  | QueryAll os now => snd (GET_all os now jobs)
  end.

Definition run (ops : list Op) (jobs : Store) : Store := fold_left step ops jobs.

(** The events that are requests to cancel or to look at jobs. *)
Definition is_lookup_or_cancel (op : Op) : bool :=
  match op with
  | Cancel _ _ _ | Query _ _ _ | QueryAll _ _ => true
  | Submit _ _ _ _ _ | WorkerExit _ _ _ => false
  end.

Definition status_of (id : string) (jobs : Store) : option Status :=
  status <$> jobs !! id.

End Jobs.

(** ** The session log reader *)

Module Sessions.

(** Result of a call that may throw. *)
Inductive completion (A : Type) : Type :=
| Return (a : A)
| Throw (e : string).
Arguments Return {A} a.
Arguments Throw {A} e.

Definition bind {A B : Type} (c : completion A) (k : A -> completion B) : completion B :=
  match c with
  | Return a => k a
  | Throw e => Throw e
  end.

Notation "'let*' x := c 'in' k" := (bind c (fun x => k))
  (at level 10, x name, c at level 100, k at level 200).

(** [v.k] as a statement of a function body. *)
Definition get (v : jsval) (k : string) : completion jsval :=
  match member v k with
  | Some r => Return r
  | None => Throw "TypeError"
  end.

(** [types/session.ts], [Session]; the fields hold whatever the log holds. *)
Inductive SessionStatus : Type := st_active | st_completed | st_error.

Record Session : Type := mkSession {
  id : jsval;
  status : SessionStatus;
  startTime : jsval;
  endTime : jsval;
  messages : list json;
  error : jsval
}.

(** [fileContent.split('\n')] *)
Fixpoint split_newline (s : string) : list string :=
  match s with
  | EmptyString => [EmptyString]
  | String c rest =>
      if Ascii.eqb c "010"%char then EmptyString :: split_newline rest
      else match split_newline rest with
           | [] => [String c EmptyString]
           | l :: ls => String c l :: ls
           end
  end.

(** [fileContent.split('\n').filter(Boolean)] *)
Definition lines (fileContent : string) : list string :=
  List.filter (fun l => negb (String.eqb l "")) (split_newline fileContent).

(** [array.some(f)] for an [f] that may throw. *)
Fixpoint some (f : json -> completion bool) (l : list json) : completion bool :=
  match l with
  | [] => Return false
  | x :: rest => let* b := f x in if b then Return true else some f rest
  end.

(** The variables of the loop of [getSessionData]. *)
Record Loop : Type := mkLoop {
  loop_messages : list json;
  loop_metadata : jsval;
  loop_error : jsval
}.

Section Reader.

(** The two builtins: [JSON.parse] ([None]: it throws [SyntaxError]) and
    [JSON.stringify] on a value that came out of [JSON.parse]. *)
Variable JSON_parse : string -> option json.
Variable JSON_stringify : json -> string.

(** [JSON.stringify(v)]: [undefined] for [undefined]. *)
Definition stringify (v : jsval) : jsval :=
  match v with
  | None => undefined
  | Some j => Some (JStr (JSON_stringify j))
  end.

(** [details?.message || JSON.stringify(details)] *)
Definition error_text (details : jsval) : jsval :=
  js_or (opt_member details "message") (stringify details).

(** [entry.entry_type === 'message' || ... 'thinking' || ... 'system_event'] *)
Definition is_entry_type (t : jsval) : bool :=
  is_str t "message" || is_str t "thinking" || is_str t "system_event".

(** [entry.entry_type === 'system_event' && entry.data?.type === kind] *)
Definition is_system_event (kind : string) (entry : json) : bool :=
  is_str (opt_member (Some entry) "entry_type") "system_event"
  && is_str (opt_member (opt_member (Some entry) "data") "type") kind.

(** One turn of [for (const line of lines) { try { ... } catch (e) { ... } }];
    an exception leaves the loop variables as they are at that point. *)
Definition loop_body (st : Loop) (line : string) : Loop :=
  match JSON_parse line with
  | None => st
  | Some entry =>
      match member (Some entry) "type" with
      | None => st
      | Some ty =>
          if is_str ty "metadata" then
            mkLoop (loop_messages st) (Some entry) (loop_error st)
          else if is_entry_type (opt_member (Some entry) "entry_type") then
            let pushed := (loop_messages st ++ [entry])%list in
            if is_system_event "error" entry then
              match member (opt_member (Some entry) "data") "details" with
              | None => mkLoop pushed (loop_metadata st) (loop_error st)
              | Some details => mkLoop pushed (loop_metadata st) (error_text details)
              end
            else mkLoop pushed (loop_metadata st) (loop_error st)
          else st
      end
  end.

Definition run_loop (ls : list string) : Loop :=
  fold_left loop_body ls (mkLoop [] undefined undefined).

(** [msg => msg.entry_type === 'system_event' && msg.data?.type === 'completed'] *)
Definition completed_event (msg : json) : completion bool :=
  let* t := get (Some msg) "entry_type" in
  Return (is_str t "system_event"
          && is_str (opt_member (opt_member (Some msg) "data") "type") "completed").

(** [getSessionData(filePath)]; [file] is what [fs.readFileSync] finds at
    [filePath] ([None]: it throws). *)
Definition getSessionData (file : option string) : completion Session :=
  match file with
  | None => Throw "ENOENT"
  | Some fileContent =>
      let st := run_loop (lines fileContent) in
      let messages := loop_messages st in
      let metadata := loop_metadata st in
      let error := loop_error st in
      if negb (truthy metadata) then Throw "No metadata found in session file"
      else
        let* status :=
          (if truthy error then Return st_error
           else let* finished := some completed_event messages in
                Return (if finished then st_completed else st_active)) in
        let* id := get metadata "session_id" in
        let* startTime := get metadata "start_time" in
        let* endTime :=
          match last messages with
          | Some m => get (Some m) "timestamp"
          | None => Return undefined
          end in
        Return (mkSession id status startTime endTime messages error)
  end.

(** *** A log, line by line

    What a line contributes to the loop: a metadata object, an entry, or
    nothing (it does not parse, it parses to [null], or it is of neither
    kind). *)
Definition metadata_of (line : string) : option json :=
  match JSON_parse line with
  | Some e => if is_str (opt_member (Some e) "type") "metadata" then Some e else None
  | None => None
  end.

Definition entry_of (line : string) : option json :=
  match JSON_parse line with
  | Some e =>
      if is_str (opt_member (Some e) "type") "metadata" then None
      else if is_entry_type (opt_member (Some e) "entry_type") then Some e
      else None
  | None => None
  end.

Definition is_metadata_line (line : string) : bool :=
  match metadata_of line with Some _ => true | None => false end.

Definition is_entry_line (line : string) : bool :=
  match entry_of line with Some _ => true | None => false end.

Definition metadata_lines (ls : list string) : list json := omap metadata_of ls.
Definition entries (ls : list string) : list json := omap entry_of ls.

(** [entry.data.details] of a retained entry, and the retained
    [system_event] entries whose [data.type] is ['error']. *)
Definition details_of (entry : json) : jsval :=
  opt_member (opt_member (Some entry) "data") "details".

Definition error_events (msgs : list json) : list json :=
  List.filter (is_system_event "error") msgs.

(** The text of the last of them, [undefined] when there is none. *)
Definition last_error_text (msgs : list json) : jsval :=
  match last (error_events msgs) with
  | Some e => error_text (details_of e)
  | None => undefined
  end.

(** *** [getAllSessions] *)

(** [new Date(v).getTime()], in milliseconds; [None] is [NaN]. *)
Variable Date_getTime : jsval -> option Z.

(** The comparator [(a, b) => new Date(b.startTime).getTime() -
    new Date(a.startTime).getTime()]. *)
Definition by_start_time (a b : Session) : option Z :=
  match Date_getTime (startTime b), Date_getTime (startTime a) with
  | Some tb, Some ta => Some (tb - ta)
  | _, _ => None
  end.

(** [Array.prototype.sort(comparefn)]: a stable sort; a comparator value
    that is [NaN] counts as [0]. For the comparators that order the array
    consistently, every stable sort returns this list. *)
Definition sorts_before {A : Type} (cmp : A -> A -> option Z) (x y : A) : bool :=
  match cmp x y with
  | Some v => v <=? 0
  | None => true
  end.

Fixpoint sort_insert {A : Type} (cmp : A -> A -> option Z) (x : A) (l : list A) : list A :=
  match l with
  | [] => [x]
  | y :: rest => if sorts_before cmp x y then x :: y :: rest
                 else y :: sort_insert cmp x rest
  end.

Fixpoint Array_sort {A : Type} (cmp : A -> A -> option Z) (l : list A) : list A :=
  match l with
  | [] => []
  | x :: rest => sort_insert cmp x (Array_sort cmp rest)
  end.

(** The logs directory: it does not exist, [readdirSync] throws on it, or
    it lists these file names; and the content of each file in it. *)
Inductive Dir : Type := NoDir | Unreadable | Listing (files : list string).

Record LogsDir : Type := mkLogsDir {
  dir : Dir;
  readFile : string -> option string
}.

(** [file.startsWith('session_') && file.endsWith('.jsonl')] *)
Definition endsWith (s suffix : string) : bool :=
  String.prefix (String.rev suffix) (String.rev s).

Definition is_session_file (file : string) : bool :=
  String.prefix "session_" file && endsWith file ".jsonl".

(** [files.map(file => { try { return getSessionData(...) } catch { return
    null } }).filter(session => session !== null)] *)
Definition read_sessions (d : LogsDir) (files : list string) : list Session :=
  omap (fun file => match getSessionData (readFile d file) with
                    | Return s => Some s
                    | Throw _ => None
                    end) files.

Definition getAllSessions (d : LogsDir) : list Session :=
  match dir d with
  | NoDir => []
  | Unreadable => []
  | Listing files =>
      Array_sort by_start_time (read_sessions d (List.filter is_session_file files))
  end.

(** The names [readdirSync] returns; none when the directory is absent or
    cannot be read. *)
Definition listed_files (d : LogsDir) : list string :=
  match dir d with
  | Listing files => files
  | NoDir | Unreadable => []
  end.

(** [new Date(s.startTime)] is a valid date. *)
Definition has_valid_start (s : Session) : bool :=
  match Date_getTime (startTime s) with
  | Some _ => true
  | None => false
  end.

(** Orders on records by start time: [a] starts no earlier than [b], and
    [a] starts later than [b]. An invalid date is in neither. *)
Definition no_earlier (a b : Session) : Prop :=
  exists ta tb, Date_getTime (startTime a) = Some ta
                /\ Date_getTime (startTime b) = Some tb /\ tb <= ta.

Definition later (a b : Session) : Prop :=
  exists ta tb, Date_getTime (startTime a) = Some ta
                /\ Date_getTime (startTime b) = Some tb /\ tb < ta.

End Reader.

End Sessions.

(** ** A small JSON reader and writer

    The session reader takes [JSON.parse] and [JSON.stringify] as
    parameters. To run it on the text of a log file, this module gives an
    executable instance for the JSON used in the examples: objects, arrays,
    strings with the two-character escapes, integers, [true], [false],
    [null]. A text outside that fragment (a fraction, an exponent, a
    [\u] escape) is rejected. *)

Module TinyJSON.

Definition is_ws (c : ascii) : bool :=
  Ascii.eqb c " " || Ascii.eqb c "009" || Ascii.eqb c "010" || Ascii.eqb c "013".

Fixpoint skip_ws (s : string) : string :=
  match s with
  | String c rest => if is_ws c then skip_ws rest else s
  | EmptyString => s
  end.

Definition digit_of (c : ascii) : option Z :=
  let n := Z.of_N (N_of_ascii c) in
  if (48 <=? n) && (n <=? 57) then Some (n - 48) else None.

Definition unescape (c : ascii) : option ascii :=
  match c with
  | "034"%char => Some "034"%char
  | "\"%char => Some "\"%char
  | "/"%char => Some "/"%char
  | "n"%char => Some "010"%char
  | "r"%char => Some "013"%char
  | "t"%char => Some "009"%char
  | "b"%char => Some "008"%char
  | "f"%char => Some "012"%char
  | _ => None
  end.

(** The characters of a string literal, after its opening quote. *)
Fixpoint parse_chars (s : string) : option (string * string) :=
  match s with
  | EmptyString => None
  | String c rest =>
      if Ascii.eqb c "034" then Some (EmptyString, rest)
      else if Ascii.eqb c "\" then
        match rest with
        | String e rest' =>
            match unescape e, parse_chars rest' with
            | Some ch, Some (body, tail) => Some (String ch body, tail)
            | _, _ => None
            end
        | EmptyString => None
        end
      else if (N_of_ascii c <? 32)%N then None
      else match parse_chars rest with
           | Some (body, tail) => Some (String c body, tail)
           | None => None
           end
  end.

Fixpoint parse_digits (s : string) (acc : Z) : Z * string :=
  match s with
  | String c rest =>
      match digit_of c with
      | Some d => parse_digits rest (10 * acc + d)
      | None => (acc, s)
      end
  | EmptyString => (acc, s)
  end.

Definition starts_fraction (s : string) : bool :=
  match s with
  | String c _ => Ascii.eqb c "." || Ascii.eqb c "e" || Ascii.eqb c "E"
  | EmptyString => false
  end.

(** [0] or a digit string without a leading [0]. *)
Definition parse_nat (s : string) : option (Z * string) :=
  match s with
  | String c rest =>
      match digit_of c with
      | Some 0 =>
          match rest with
          | String c' _ =>
              match digit_of c' with
              | Some _ => None
              | None => if starts_fraction rest then None else Some (0, rest)
              end
          | EmptyString => Some (0, rest)
          end
      | Some d =>
          let '(n, tail) := parse_digits rest d in
          if starts_fraction tail then None else Some (n, tail)
      | None => None
      end
  | EmptyString => None
  end.

Definition parse_number (s : string) : option (json * string) :=
  match s with
  | String "-" rest =>
      match parse_nat rest with
      | Some (n, tail) => Some (JNum (- n), tail)
      | None => None
      end
  | _ =>
      match parse_nat s with
      | Some (n, tail) => Some (JNum n, tail)
      | None => None
      end
  end.

Definition parse_literal (word : string) (v : json) (s : string) : option (json * string) :=
  if String.prefix word s
  then Some (v, String.substring (String.length word)
                  (String.length s - String.length word) s)
  else None.

(** [obj[k] = v]: a repeated key keeps its place and takes the new value. *)
Fixpoint set_field (k : string) (v : json) (fields : list (string * json))
  : list (string * json) :=
  match fields with
  | [] => [(k, v)]
  | (k', v') :: rest =>
      if String.eqb k k' then (k, v) :: rest else (k', v') :: set_field k v rest
  end.

Fixpoint parse_value (fuel : nat) (s : string) : option (json * string) :=
  match fuel with
  | O => None
  | S fuel' =>
      match skip_ws s with
      | String "n" _ as t => parse_literal "null" JNull t
      | String "t" _ as t => parse_literal "true" (JBool true) t
      | String "f" _ as t => parse_literal "false" (JBool false) t
      | String "034" rest =>
          match parse_chars rest with
          | Some (str, tail) => Some (JStr str, tail)
          | None => None
          end
      | String "[" rest =>
          match skip_ws rest with
          | String "]" tail => Some (JArr [], tail)
          | _ => parse_items fuel' rest []
          end
      | String "{" rest =>
          match skip_ws rest with
          | String "}" tail => Some (JObj [], tail)
          | _ => parse_fields fuel' rest []
          end
      | t => parse_number t
      end
  end
with parse_items (fuel : nat) (s : string) (acc : list json) : option (json * string) :=
  match fuel with
  | O => None
  | S fuel' =>
      match parse_value fuel' s with
      | Some (v, rest) =>
          match skip_ws rest with
          | String "," tail => parse_items fuel' tail (acc ++ [v])%list
          | String "]" tail => Some (JArr (acc ++ [v])%list, tail)
          | _ => None
          end
      | None => None
      end
  end
with parse_fields (fuel : nat) (s : string) (acc : list (string * json))
  : option (json * string) :=
  match fuel with
  | O => None
  | S fuel' =>
      match skip_ws s with
      | String "034" rest =>
          match parse_chars rest with
          | Some (k, after_key) =>
              match skip_ws after_key with
              | String ":" after_colon =>
                  match parse_value fuel' after_colon with
                  | Some (v, rest') =>
                      match skip_ws rest' with
                      | String "," tail => parse_fields fuel' tail (set_field k v acc)
                      | String "}" tail => Some (JObj (set_field k v acc), tail)
                      | _ => None
                      end
                  | None => None
                  end
              | _ => None
              end
          | None => None
          end
      | _ => None
      end
  end.

(** The instance of [JSON.parse]: one value, then white space only. *)
Definition parse (s : string) : option json :=
  match parse_value (2 * String.length s + 2) s with
  | Some (v, rest) =>
      match skip_ws rest with
      | EmptyString => Some v
      | String _ _ => None
      end
  | None => None
  end.

(** Decimal digits of a natural number, most significant first. *)
Fixpoint digits (fuel : nat) (n : N) (acc : string) : string :=
  let acc' := String (ascii_of_N (48 + n mod 10)) acc in
  match fuel with
  | O => acc'
  | S fuel' => if (n / 10 =? 0)%N then acc' else digits fuel' (n / 10)%N acc'
  end.

Definition print_Z (n : Z) : string :=
  let m := Z.to_N (Z.abs n) in
  let body := digits (N.to_nat (N.log2 m)) m EmptyString in
  if n <? 0 then String "-" body else body.

Fixpoint escape (s : string) : string :=
  match s with
  | EmptyString => EmptyString
  | String c rest =>
      let n := N_of_ascii c in
      (if Ascii.eqb c "034" then String "\" (String "034" EmptyString)
       else if Ascii.eqb c "\" then String "\" (String "\" EmptyString)
       else if (n =? 8)%N then String "\" (String "b" EmptyString)
       else if (n =? 9)%N then String "\" (String "t" EmptyString)
       else if (n =? 10)%N then String "\" (String "n" EmptyString)
       else if (n =? 12)%N then String "\" (String "f" EmptyString)
       else if (n =? 13)%N then String "\" (String "r" EmptyString)
       else if (n <? 32)%N then
         String "\" (String "u" (String "0" (String "0"
           (String (hex_digit (n / 16)) (String (hex_digit (n mod 16)) EmptyString)))))
       else String c EmptyString) ++ escape rest
  end.

Definition quote (s : string) : string :=
  String "034" (escape s ++ String "034" EmptyString).

(** The instance of [JSON.stringify]: no white space between tokens. *)
Fixpoint stringify (j : json) : string :=
  match j with
  | JNull => "null"
  | JBool true => "true"
  | JBool false => "false"
  | JNum n => print_Z n
  | JStr s => quote s
  | JArr items =>
      String "[" ((fix go (l : list json) : string :=
                     match l with
                     | [] => EmptyString
                     | x :: rest =>
                         stringify x ++
                         match rest with [] => EmptyString | _ => String "," (go rest) end
                     end) items ++ "]")
  | JObj fields =>
      String "{" ((fix go (l : list (string * json)) : string :=
                     match l with
                     | [] => EmptyString
                     | (k, v) :: rest =>
                         quote k ++ String ":" (stringify v) ++
                         match rest with [] => EmptyString | _ => String "," (go rest) end
                     end) fields ++ "}")
  end.

(** The instance of [new Date(v).getTime()] for a number [v] of
    milliseconds: the number itself within the range of a time value,
    [NaN] outside. Other values are read as invalid dates. *)
Definition epoch_ms (v : jsval) : option Z :=
  match v with
  | Some (JNum n) => if Z.abs n <=? 8640000000000000 then Some n else None
  | _ => None
  end.

End TinyJSON.


(** ** Sample inputs *)

Module Samples.

Import Jobs.

Definition nl : string := String "010"%char EmptyString.

(** JSON text is written here with an apostrophe for each double quote. *)
Fixpoint dq (s : string) : string :=
  match s with
  | EmptyString => EmptyString
  | String c rest => String (if Ascii.eqb c "'" then "034"%char else c) (dq rest)
  end.

(** A file with one line per element, each ended by a newline. *)
Definition file_of (ls : list string) : string :=
  String.concat EmptyString (List.map (fun l => l ++ nl) ls).

Definition metadata_line : string :=
  dq "{'type':'metadata','session_id':'s1','start_time':'2025-03-01T10:00:00Z'}".

Definition metadata_line_2 : string :=
  dq "{'type':'metadata','session_id':'s2','start_time':'2025-03-02T08:30:00Z'}".

Definition hello_line : string :=
  dq "{'entry_type':'message','timestamp':'T1','data':{'role':'user','content':'hello'}}".

Definition thinking_line : string :=
  dq "{'entry_type':'thinking','timestamp':'T2','data':{'content':'hm'}}".

Definition boom_line : string :=
  dq "{'entry_type':'system_event','timestamp':'T','data':{'type':'error','details':{'message':'boom'}}}".

Definition bang_line : string :=
  dq "{'entry_type':'system_event','timestamp':'T3','data':{'type':'error','details':{'message':'bang'}}}".

(** An error event that carries no [details]. *)
Definition bare_error_line : string :=
  dq "{'entry_type':'system_event','timestamp':'T4','data':{'type':'error'}}".

Definition completed_line : string :=
  dq "{'entry_type':'system_event','timestamp':'T5','data':{'type':'completed'}}".

(** A line cut short while the worker is still writing it. *)
Definition partial_line : string := dq "{'entry_type':'mess".

(** Example B of the specification. *)
Definition log_B : string := file_of [metadata_line; boom_line].

Definition log_two_errors : string := file_of [metadata_line; boom_line; bang_line].

Definition log_error_then_bare : string :=
  file_of [metadata_line; boom_line; bare_error_line].

Definition log_error_and_completed : string :=
  file_of [metadata_line; hello_line; completed_line; boom_line].

Definition log_partial : string :=
  file_of [hello_line; metadata_line; thinking_line] ++ partial_line.

Definition log_two_metadata : string :=
  file_of [metadata_line; hello_line; metadata_line_2; thinking_line].

(** Session files whose [start_time] is a number of milliseconds. *)
Definition session_at (name : string) (ms : string) : string :=
  file_of [dq "{'type':'metadata','session_id':'" ++ name ++ dq "','start_time':" ++ ms ++ "}"].

(** Two logs directories: one with two sessions that start at the same
    instant; one with an older and a newer session, a session file without
    metadata, a session file that cannot be read, and a file that is not a
    session. *)
Definition logs_with_tie : Sessions.LogsDir :=
  Sessions.mkLogsDir
    (Sessions.Listing ["session_a.jsonl"; "session_b.jsonl"])
    (fun file =>
       if String.eqb file "session_a.jsonl" then Some (session_at "a" "1700000000000")
       else if String.eqb file "session_b.jsonl" then Some (session_at "b" "1700000000000")
       else None).

Definition logs_mixed : Sessions.LogsDir :=
  Sessions.mkLogsDir
    (Sessions.Listing ["session_old.jsonl"; "session_broken.jsonl"; "notes.txt";
                       "session_new.jsonl"; "session_gone.jsonl"])
    (fun file =>
       if String.eqb file "session_old.jsonl" then Some (session_at "old" "1700000000000")
       else if String.eqb file "session_new.jsonl" then Some (session_at "new" "1700000360000")
       else if String.eqb file "session_broken.jsonl" then Some (file_of [hello_line])
       else if String.eqb file "notes.txt" then Some "remember the milk"
       else None).

(** Every draw of [Math.random] is [0]: the id is thirty-two zeros. *)
Definition zero_draws : nat -> Byte.byte := fun _ => Byte.x00.
Definition id0 : string := "00000000000000000000000000000000".

(** The submission [{agent_worker_task: {task: "x", model: "m"}, config: {}}]. *)
Definition submission_A : json :=
  JObj [("agent_worker_task", JObj [("task", JStr "x"); ("model", JStr "m")]);
        ("config", JObj [])].

(** The same without [config]. *)
Definition submission_C : json :=
  JObj [("agent_worker_task", JObj [("task", JStr "x"); ("model", JStr "m")])].

(** The temp files are written and [exec] starts process 4242. *)
Definition env_ok : SpawnEnv := mkSpawnEnv true (Some (Some 4242)) "/srv/agentic".

(** Every process exists and accepts every signal. *)
Definition os_alive : OS := fun _ _ => Delivered.

(** Every process belongs to somebody else. *)
Definition os_foreign : OS := fun _ _ => EPERM.

(** A store with one finished job. *)
Definition finished_job : JobStatus :=
  mkJob id0 completed "t0" (Some "t1") (Some "t2") None (Some 4242) (Some (JStr "/srv/agentic")).

Definition one_finished : Store := <[id0 := finished_job]> ∅.

End Samples.

(** ** What a store holds

    Predicates on the records of a store, read off the places that write
    one: the record [POST] creates and the spreads that follow. *)

Module JobStore.

Import Jobs.

(** The record [POST] writes under a new id before it calls [runJob]. *)
Definition fresh (id t_post : string) : JobStatus :=
  mkJob id pending t_post None None None None undefined.

(** A record sits under its own [jobId]. *)
Definition keyed_by_id (k : string) (j : JobStatus) : Prop := jobId j = k.

(** A record has left [pending] and has its [startedAt]. *)
Definition started (j : JobStatus) : Prop :=
  status j <> pending /\ startedAt j <> None.

(** [completedAt] is there exactly in the terminal statuses. *)
Definition completedAt_iff_terminal (j : JobStatus) : Prop :=
  terminal (status j) = true <-> completedAt j <> None.

(** A [failed] record says why. *)
Definition failure_has_error (j : JobStatus) : Prop :=
  status j = failed -> error j <> None.

(** The fields that later writes leave alone. *)
Definition same_launch (j j' : JobStatus) : Prop :=
  jobId j' = jobId j /\ createdAt j' = createdAt j /\ startedAt j' = startedAt j
  /\ pid j' = pid j /\ workdir j' = workdir j.

(** The events that are not a submission. *)
Definition is_submit (op : Op) : bool :=
  match op with
  | Submit _ _ _ _ _ => true
  | _ => false
  end.

(** A history: a submission, a look at the list, a worker that fails, a
    cancel that comes too late. *)
Definition sample_history : list Op :=
  [Submit (Some Samples.submission_A) Samples.zero_draws "t0" "t1" Samples.env_ok;
   QueryAll Samples.os_alive "t2";
   WorkerExit Samples.id0 (Some "Command failed: uv run") "t3";
   Cancel Samples.id0 Samples.os_alive "t4"].

(** A job whose launch threw: [running], no pid. *)
Definition stuck_job : JobStatus :=
  mkJob Samples.id0 running "t0" (Some "t1") None None None undefined.

(** A job whose worker is process 4242. *)
Definition running_job : JobStatus :=
  mkJob Samples.id0 running "t0" (Some "t1") None None (Some 4242)
        (Some (JStr "/srv/agentic")).

(** The temp directory cannot be written. *)
Definition env_read_only : SpawnEnv := mkSpawnEnv false (Some (Some 4242)) "/srv/agentic".

(** Every process is gone. *)
Definition os_dead : OS := fun _ _ => ESRCH.

(** [c] is one of [0-9a-f]. *)
Definition is_hex_char (c : ascii) : bool :=
  let n := N_of_ascii c in
  ((48 <=? n) && (n <=? 57) || (97 <=? n) && (n <=? 102))%N.

(** Reading two hexadecimal digits back. *)
Definition unhex_digit (c : ascii) : N :=
  let n := N_of_ascii c in
  (if n <=? 57 then n - 48 else n - 87)%N.

Definition unhex2 (s : string) : option Byte.byte :=
  match s with
  | String a (String b EmptyString) => Byte.of_N (16 * unhex_digit a + unhex_digit b)
  | _ => None
  end.

End JobStore.

(** ** Looking one session up, and the routes over the reader

    [getSession] of [lib/sessions.ts], the two routes
    [app/api/sessions/route.ts] and [app/api/sessions/[id]/route.ts], and
    [getFirstUserMessage] of [components/SessionList.tsx], which reads the
    records the routes return. *)

Module SessionLookup.

Import Sessions.

(** [s.includes(sub)] *)
Fixpoint includes (s sub : string) : bool :=
  String.prefix sub s
  || match s with
     | String _ rest => includes rest sub
     | EmptyString => false
     end.

(** A line holds a newline character. *)
Fixpoint has_newline (s : string) : bool :=
  match s with
  | EmptyString => false
  | String c rest => Ascii.eqb c "010"%char || has_newline rest
  end.

(** [file => file.includes(sessionId) && file.endsWith('.jsonl')] *)
Definition names_session (sessionId file : string) : bool :=
  includes file sessionId && endsWith file ".jsonl".

(** [array.find(f)] for an [f] that may throw. *)
Fixpoint find (f : json -> completion bool) (l : list json) : completion jsval :=
  match l with
  | [] => Return undefined
  | x :: rest => let* b := f x in if b then Return (Some x) else find f rest
  end.

(** [msg => msg.entry_type === 'message' && msg.data.role === 'user'] *)
Definition is_user_message (msg : json) : completion bool :=
  let* t := get (Some msg) "entry_type" in
  if is_str t "message" then
    let* data := get (Some msg) "data" in
    let* role := get data "role" in
    Return (is_str role "user")
  else Return false.

(** [getFirstUserMessage(session)]:
    [userMessage?.data.content || 'No user message']. *)
Definition getFirstUserMessage (session : Session) : completion jsval :=
  let* userMessage := find is_user_message (messages session) in
  let* content :=
    match userMessage with
    | None => Return undefined
    | Some JNull => Return undefined
    | Some m => let* data := get (Some m) "data" in get data "content"
    end in
  Return (js_or content (Some (JStr "No user message"))).

(** The entry [getFirstUserMessage] looks for, as a test that cannot
    throw, and the [data.content] of the first such entry of a list. *)
Definition is_user_entry (msg : json) : bool :=
  is_str (opt_member (Some msg) "entry_type") "message"
  && is_str (opt_member (opt_member (Some msg) "data") "role") "user".

Definition first_user_content (msgs : list json) : jsval :=
  match List.find is_user_entry msgs with
  | Some m => opt_member (opt_member (Some m) "data") "content"
  | None => undefined
  end.

Section Lookup.

Variable JSON_parse : string -> option json.
Variable JSON_stringify : json -> string.
Variable Date_getTime : jsval -> option Z.

(** [getSession(sessionId)]: [null] is [None]. *)
Definition getSession (d : LogsDir) (sessionId : string) : option Session :=
  match dir d with
  | NoDir => None
  | Unreadable => None
  | Listing files =>
      match List.filter (names_session sessionId) files with
      | [] => None
      | file :: _ =>
          match getSessionData JSON_parse JSON_stringify (readFile d file) with
          | Return s => Some s
          | Throw _ => None
          end
      end
  end.

Inductive Body : Type :=
| SessionBody (s : Session)
| SessionsBody (l : list Session)
| ErrorBody (msg : string).

Record Response : Type := mkResponse { code : nat; body : Body }.

(** [GET /api/sessions] *)
Definition GET_all (d : LogsDir) : Response :=
  mkResponse 200 (SessionsBody (getAllSessions JSON_parse JSON_stringify Date_getTime d)).

(** [GET /api/sessions/[id]] *)
Definition GET (d : LogsDir) (id : string) : Response :=
  match getSession d id with
  | None => mkResponse 404 (ErrorBody "Session not found")
  | Some s => mkResponse 200 (SessionBody s)
  end.

End Lookup.

(** More sample logs: an entry of kind [message] that has no [data], and
    a log without a metadata line. *)
Definition bare_message_line : string :=
  Samples.dq "{'entry_type':'message','timestamp':'T0'}".

Definition log_bare_message : string :=
  Samples.file_of [Samples.metadata_line; bare_message_line; Samples.hello_line].

Definition log_no_metadata : string :=
  Samples.file_of [Samples.hello_line; Samples.thinking_line].

(** A logs directory in which a file that is no session file comes first
    and also carries the letters of the id asked for. *)
Definition logs_shadowed : LogsDir :=
  mkLogsDir
    (Listing ["notes_old.jsonl"; "session_old.jsonl"])
    (fun file =>
       if String.eqb file "session_old.jsonl"
       then Some (Samples.session_at "old" "1700000000000")
       else if String.eqb file "notes_old.jsonl" then Some "remember the milk"
       else None).

End SessionLookup.

(** ** The configuration files of the project root

    The two routes [app/api/configs/route.ts] and
    [app/api/configs/[filename]/route.ts], from which the submission form
    takes the task and the config it posts. *)

Module Configs.

Import Sessions SessionLookup.

(** [path.basename(p)] on POSIX: the trailing slashes are dropped, then
    the characters after the last slash are kept. *)
Fixpoint drop_slashes (s : string) : string :=
  match s with
  | String c rest => if Ascii.eqb c "/" then drop_slashes rest else s
  | EmptyString => EmptyString
  end.

Fixpoint take_segment (s : string) : string :=
  match s with
  | String c rest => if Ascii.eqb c "/" then EmptyString else String c (take_segment rest)
  | EmptyString => EmptyString
  end.

Definition basename (p : string) : string :=
  String.rev (take_segment (drop_slashes (String.rev p))).

Fixpoint has_slash (s : string) : bool :=
  match s with
  | EmptyString => false
  | String c rest => Ascii.eqb c "/" || has_slash rest
  end.

(** The project root: the names [readdirSync] lists ([None]: it throws),
    and for a name in it whether the file exists and what reading it
    gives ([Some None]: it exists and [readFileSync] throws). *)
Record ProjectRoot : Type := mkProjectRoot {
  root_listing : option (list string);
  root_file : string -> option (option string)
}.

Inductive Body : Type :=
| JSONBody (content : json)
| ListsBody (agentWorkerTasks configFiles : list string)
| ErrorBody (msg : string).

Record Response : Type := mkResponse { code : nat; body : Body }.

(** [file => file.includes('agent_worker_task') && file.endsWith('.json')] *)
Definition is_task_file (file : string) : bool :=
  includes file "agent_worker_task" && endsWith file ".json".

(** [file => file.includes('config') && file.endsWith('.json') &&
    !file.includes('agent_worker')] *)
Definition is_config_file (file : string) : bool :=
  includes file "config" && endsWith file ".json" && negb (includes file "agent_worker").

(** [GET /api/configs] *)
Definition GET (root : ProjectRoot) : Response :=
  match root_listing root with
  | None => mkResponse 500 (ErrorBody "Failed to list config files")
  | Some files =>
      mkResponse 200 (ListsBody (List.filter is_task_file files)
                                (List.filter is_config_file files))
  end.

Section File.

Variable JSON_parse : string -> option json.

(** [GET /api/configs/[filename]]. The second component lists the names
    under the project root that the handler hands to [existsSync] and
    [readFileSync]. *)
Definition GET_file (root : ProjectRoot) (filename : string) : Response * list string :=
  if negb (endsWith filename ".json") then
    (mkResponse 400 (ErrorBody "Invalid file type. Only JSON files are allowed."), [])
  else
    let sanitizedFilename := basename filename in
    match root_file root sanitizedFilename with
    | None => (mkResponse 404 (ErrorBody "File not found"), [sanitizedFilename])
    | Some None => (mkResponse 500 (ErrorBody "Failed to read file"), [sanitizedFilename])
    | Some (Some content) =>
        match JSON_parse content with
        | Some jsonContent => (mkResponse 200 (JSONBody jsonContent), [sanitizedFilename])
        | None => (mkResponse 400 (ErrorBody "File is not valid JSON"), [sanitizedFilename])
        end
    end.

End File.

(** A project root with a task file, a config file, a file whose name
    says both, and a file that is not JSON. *)
Definition sample_root : ProjectRoot :=
  mkProjectRoot
    (Some ["agent_worker_task.json"; "config.json"; "agent_worker_config.json";
           "README.md"; "my_config.json"])
    (fun name =>
       if String.eqb name "config.json" then Some (Some "{}")
       else if String.eqb name "agent_worker_task.json" then Some (Some "[1")
       else None).

End Configs.

(** * Properties *)

(** ** JavaScript values *)

Module JSFacts.

Lemma is_str_spec v lit : is_str v lit = true <-> v = Some (JStr lit).
Proof.
  destruct v as [[| | |s| |]|]; simpl; split; try discriminate.
  - intros H. apply String.eqb_eq in H. by subst.
  - intros [= ->]. apply String.eqb_refl.
Qed.

Lemma member_not_null (j : json) k :
  j <> JNull -> member (Some j) k = Some (opt_member (Some j) k).
Proof. intros H. unfold opt_member. destruct j; simpl; congruence. Qed.

Lemma truthy_not_null (j : json) : truthy (Some j) = true -> j <> JNull.
Proof. intros H ->. discriminate. Qed.

Lemma opt_member_is_str_object (j : json) k lit :
  is_str (opt_member (Some j) k) lit = true -> exists fields, j = JObj fields.
Proof. destruct j; simpl; try discriminate. eauto. Qed.

End JSFacts.

(** ** The job lifecycle manager *)

Module JobsSpec.

Import Jobs Samples JSFacts.

Lemma reconcile_not_running os now job :
  status job <> running -> reconcile os now job = job.
Proof. intros H. unfold reconcile. by rewrite decide_False. Qed.

Lemma reconcile_trace_not_running job :
  status job <> running -> reconcile_trace job = [].
Proof. intros H. unfold reconcile_trace. by rewrite decide_False. Qed.

Lemma reconcile_status os now job :
  status (reconcile os now job) = status job
  \/ (status job = running /\ status (reconcile os now job) = completed).
Proof.
  unfold reconcile. case_decide; [|by left].
  destruct (pid_truthy _); [|by left].
  destruct (isProcessRunning _ _); [by left | by right].
Qed.

Lemma terminal_not_running s : terminal s = true -> s <> running.
Proof. by destruct s. Qed.



(** *** What each handler does to the status of a record *)

Lemma updateJobStatus_status os now id' id (jobs : Store) s :
  status_of id jobs = Some s -> terminal s = true ->
  status_of id (fst (updateJobStatus os now id' jobs)) = Some s.
Proof.
  unfold status_of, updateJobStatus. intros Hs Ht.
  destruct (jobs !! id') as [job'|] eqn:E'; simpl; [|done].
  destruct (decide (id' = id)) as [->|Hne].
  - rewrite lookup_insert_eq. rewrite E' in Hs. simpl in *.
    injection Hs as <-. rewrite reconcile_not_running; [done|].
    by apply terminal_not_running.
  - by rewrite lookup_insert_ne.
Qed.

Lemma DELETE_keeps_terminal os now id' id (jobs : Store) s :
  status_of id jobs = Some s -> terminal s = true ->
  status_of id (snd (fst (DELETE id' os now jobs))) = Some s.
Proof.
  intros Hs Ht. unfold DELETE.
  destruct (jobs !! id') as [job'|] eqn:E'; simpl; [|done].
  case_decide as Hrun; [|done].
  destruct (pid_truthy (pid job')); [|done].
  assert (id' <> id) as Hne.
  { intros ->. unfold status_of in Hs. rewrite E' in Hs. simpl in Hs.
    injection Hs as <-. rewrite Hrun in Ht. discriminate. }
  destruct (os _ SIGTERM); simpl.
  - unfold status_of. by rewrite lookup_insert_ne.
  - pose proof (updateJobStatus_status os now id' id jobs s Hs Ht) as H.
    destruct (updateJobStatus os now id' jobs) as [jobs' tr]. simpl in *.
    by destruct (jobs' !! id').
  - pose proof (updateJobStatus_status os now id' id jobs s Hs Ht) as H.
    destruct (updateJobStatus os now id' jobs) as [jobs' tr]. simpl in *.
    by destruct (jobs' !! id').
Qed.

Lemma GET_keeps_terminal os now id' id (jobs : Store) s :
  status_of id jobs = Some s -> terminal s = true ->
  status_of id (snd (fst (GET id' os now jobs))) = Some s.
Proof.
  intros Hs Ht. unfold GET.
  destruct (jobs !! id') as [job'|] eqn:E'; simpl; [|done].
  pose proof (updateJobStatus_status os now id' id jobs s Hs Ht) as H.
  destruct (updateJobStatus os now id' jobs) as [jobs' tr]. simpl in *.
  by destruct (jobs' !! id').
Qed.

Lemma GET_all_keeps_terminal os now id (jobs : Store) s :
  status_of id jobs = Some s -> terminal s = true ->
  status_of id (snd (GET_all os now jobs)) = Some s.
Proof.
  unfold status_of, GET_all. simpl. intros Hs Ht. rewrite lookup_fmap.
  destruct (jobs !! id) as [job|]; simpl in *; [|done].
  injection Hs as <-. rewrite reconcile_not_running; [done|].
  by apply terminal_not_running.
Qed.

(** Cancelling and looking never move a record out of a terminal status. *)
Lemma requests_keep_terminal op id (jobs : Store) s :
  is_lookup_or_cancel op = true ->
  status_of id jobs = Some s -> terminal s = true ->
  status_of id (step jobs op) = Some s.
Proof.
  destruct op; simpl; try discriminate; intros _.
  - apply DELETE_keeps_terminal.
  - apply GET_keeps_terminal.
  - apply GET_all_keeps_terminal.
Qed.

(** The exit callback writes its status whatever the status was. *)
Lemma exec_callback_status id err now (jobs : Store) s :
  status_of id jobs = Some s ->
  status_of id (exec_callback id err now jobs)
  = Some (match err with Some _ => failed | None => completed end).
Proof.
  unfold status_of, exec_callback. intros Hs.
  destruct err; rewrite lookup_alter_eq; by destruct (jobs !! id).
Qed.

(** C1. The claim: once a job is completed, failed or cancelled, no later
    operation changes its status, the exit callback of the worker after a
    cancel included. On the history submit, cancel, worker exit, the record
    is [running] after the submission, [cancelled] after the cancel, and
    [failed] after the exit callback of the killed worker: a terminal
    status has changed. *)
Theorem exit_callback_overwrites_cancelled :
  let submitted := step ∅ (Submit (Some submission_A) zero_draws "t0" "t1" env_ok) in
  let stopped := step submitted (Cancel id0 os_alive "t2") in
  let exited := step stopped (WorkerExit id0 (Some "Command failed: uv run") "t3") in
  status_of id0 submitted = Some running
  /\ status_of id0 stopped = Some cancelled
  /\ status_of id0 exited = Some failed.
Proof. vm_compute. repeat split. Qed.

(** *** Submission *)





(** A body other than [null] that lacks [config], or lacks
    [agent_worker_task], is answered with 400 and leaves the store as it
    was, so that the list of jobs returned afterwards is the one that
    would have been returned before. *)
Theorem POST_missing_field_is_rejected (b : json) rnd t_post t_run env (jobs : Store) os now :
  b <> JNull ->
  opt_member (Some b) "config" = undefined
  \/ opt_member (Some b) "agent_worker_task" = undefined ->
  POST (Some b) rnd t_post t_run env jobs
  = (mkResponse 400 (ErrorBody "Missing required fields: agent_worker_task and config"), jobs)
  /\ GET_all os now (snd (POST (Some b) rnd t_post t_run env jobs)) = GET_all os now jobs.
Proof.
  intros Hb Habsent.
  assert (POST (Some b) rnd t_post t_run env jobs
          = (mkResponse 400
               (ErrorBody "Missing required fields: agent_worker_task and config"), jobs)) as E.
  { unfold POST. rewrite (member_not_null b _ Hb).
    destruct Habsent as [-> | ->]; simpl; [|done].
    by rewrite orb_true_r. }
  by rewrite E.
Qed.

Lemma POST_missing_field_is_rejected_witness :
  POST (Some submission_C) zero_draws "t0" "t1" env_ok one_finished
  = (mkResponse 400 (ErrorBody "Missing required fields: agent_worker_task and config"),
     one_finished)
  /\ GET_all os_alive "t2" (snd (POST (Some submission_C) zero_draws "t0" "t1" env_ok one_finished))
     = GET_all os_alive "t2" one_finished.
Proof.
  apply (POST_missing_field_is_rejected submission_C); [discriminate | left; reflexivity].
Defined.

(** Whatever the body, a submission that lacks one of the two fields
    creates no record. *)
Lemma POST_missing_field_creates_no_job (b : json) rnd t_post t_run env (jobs : Store) :
  opt_member (Some b) "config" = undefined
  \/ opt_member (Some b) "agent_worker_task" = undefined ->
  snd (POST (Some b) rnd t_post t_run env jobs) = jobs.
Proof.
  intros Habsent.
  assert (b = JNull \/ b <> JNull) as [-> | Hb] by (destruct b; (by left) || (by right)).
  - reflexivity.
  - unfold POST. rewrite (member_not_null b _ Hb).
    destruct Habsent as [-> | ->]; simpl; [|done]. by rewrite orb_true_r.
Qed.

(** C7. The claim: a submission in which [config] or [agent_worker_task]
    is absent is answered with 400 and creates no job. On the JSON body
    [null] both fields are absent, reading [body.agent_worker_task]
    throws, and the handler's catch answers 500 [Failed to submit job]
    instead of the 400 of the validation; the store is left as it was. *)
Theorem POST_null_body_is_answered_500 :
  opt_member (Some JNull) "config" = undefined
  /\ opt_member (Some JNull) "agent_worker_task" = undefined
  /\ POST (Some JNull) zero_draws "t0" "t1" env_ok one_finished
     = (mkResponse 500 (ErrorBody "Failed to submit job"), one_finished)
  /\ code (fst (POST (Some JNull) zero_draws "t0" "t1" env_ok one_finished)) <> 400%nat.
Proof. repeat split. discriminate. Qed.

(** *** Cancellation *)

(** C8. Cancelling a job that is not [running] returns its record and
    leaves the store as it was, without a call to [process.kill]; every
    signal a cancel sends goes to the recorded, non-zero pid of a job that
    was [running]. *)
Theorem DELETE_not_running_is_noop id os now (jobs : Store) job :
  jobs !! id = Some job ->
  (status job <> running ->
   DELETE id os now jobs = (mkResponse 200 (JobBody job), jobs, []))
  /\ (forall p sg, In (p, sg) (snd (DELETE id os now jobs)) ->
        status job = running /\ pid job = Some p /\ p <> 0).
Proof.
  intros Hj. unfold DELETE. rewrite Hj. split.
  - intros Hs. by rewrite decide_False.
  - intros p sg. case_decide as Hrun; [|intros []].
    destruct (pid_truthy (pid job)) eqn:Hp; [|intros []].
    assert (forall q sg', In (q, sg') ((default 0 (pid job), SIGTERM) :: reconcile_trace job)
                          -> status job = running /\ pid job = Some q /\ q <> 0) as Hall.
    { unfold reconcile_trace. rewrite decide_True, Hp by done.
      destruct (pid job) as [n|]; [|discriminate]. simpl in *.
      intros q sg' [[= <- _] | [[= <- _] | []]];
        (repeat split; [done|]); intros ->; discriminate. }
    destruct (os _ SIGTERM); simpl.
    + intros [[= <- <-] | []]. apply (Hall _ SIGTERM). by left.
    + unfold updateJobStatus. rewrite Hj, lookup_insert_eq. simpl. apply Hall.
    + unfold updateJobStatus. rewrite Hj, lookup_insert_eq. simpl. apply Hall.
Qed.

Lemma DELETE_not_running_is_noop_witness :
  DELETE id0 os_alive "t3" one_finished
  = (mkResponse 200 (JobBody finished_job), one_finished, []).
Proof.
  apply (DELETE_not_running_is_noop id0 os_alive "t3" one_finished finished_job).
  - reflexivity.
  - discriminate.
Defined.

(** *** The liveness probe *)

(** C3, as the code has it. The probe answers [true] exactly when the
    signal-0 check succeeds; it answers [false] whenever the check fails,
    for a permission-denied error as for a no-such-process error. *)
Theorem isProcessRunning_iff_check_succeeds (os : OS) (p : Z) :
  (isProcessRunning os p = true <-> os p SIG0 = Delivered)
  /\ (isProcessRunning os p = false <-> os p SIG0 = EPERM \/ os p SIG0 = ESRCH).
Proof.
  unfold isProcessRunning. destruct (os p SIG0); split; split;
    try done; try (intros [|]; done); auto.
Qed.

(** C3, as the claim states it, fails: the probe of a process that exists
    and belongs to another user is [false]. *)
Lemma isProcessRunning_permission_denied :
  os_foreign 1 SIG0 = EPERM /\ isProcessRunning os_foreign 1 <> true.
Proof. split; [reflexivity | discriminate]. Qed.

End JobsSpec.

(** ** The small JSON writer never writes the empty text *)

Module TinyJSONFacts.

Lemma digits_nonempty fuel n acc : TinyJSON.digits fuel n acc <> EmptyString.
Proof.
  revert n acc. induction fuel as [|fuel IH]; intros n acc; simpl; [discriminate|].
  destruct (_ =? _)%N; [discriminate | apply IH].
Qed.

Lemma stringify_nonempty j : TinyJSON.stringify j <> EmptyString.
Proof.
  destruct j as [|[|]|n|s|items|fields]; simpl; try discriminate.
  unfold TinyJSON.print_Z. destruct (n <? 0); [discriminate | apply digits_nonempty].
Qed.

End TinyJSONFacts.

(** ** The session log reader *)

Module SessionsSpec.

Import Sessions Samples JSFacts.

Section ReaderFacts.

Variable JSON_parse : string -> option json.
Variable JSON_stringify : json -> string.

Lemma entry_type_object (e : json) :
  is_entry_type (opt_member (Some e) "entry_type") = true -> exists fields, e = JObj fields.
Proof.
  unfold is_entry_type. intros H.
  apply orb_true_iff in H as [H|H]; [apply orb_true_iff in H as [H|H]|];
    by apply opt_member_is_str_object in H.
Qed.

Lemma metadata_of_Some line md :
  metadata_of JSON_parse line = Some md ->
  JSON_parse line = Some md /\ exists fields, md = JObj fields.
Proof.
  unfold metadata_of. destruct (JSON_parse line) as [e|]; [|done].
  destruct (is_str _ _) eqn:E; [|done]. intros [= <-].
  split; [done|]. by apply opt_member_is_str_object in E.
Qed.

Lemma entry_of_Some line e :
  entry_of JSON_parse line = Some e ->
  JSON_parse line = Some e
  /\ is_str (opt_member (Some e) "type") "metadata" = false
  /\ exists fields, e = JObj fields.
Proof.
  unfold entry_of. destruct (JSON_parse line) as [e'|]; [|done].
  destruct (is_str _ "metadata") eqn:E; [done|].
  destruct (is_entry_type _) eqn:E'; [|done]. intros [= <-].
  repeat split; [done|]. by apply entry_type_object.
Qed.

Lemma entries_objects ls :
  Forall (fun e => exists fields, e = JObj fields) (entries JSON_parse ls).
Proof.
  apply Forall_forall. intros e He. apply list_elem_of_omap in He as (line & _ & He).
  by apply entry_of_Some in He as (_ & _ & ?).
Qed.

Lemma system_event_data_object kind (e : json) :
  is_system_event kind e = true ->
  member (opt_member (Some e) "data") "details" = Some (details_of e).
Proof.
  unfold is_system_event, details_of. intros H.
  apply andb_true_iff in H as [_ H].
  destruct (opt_member (Some e) "data") as [d|]; [|done].
  apply opt_member_is_str_object in H as [fields ->]. reflexivity.
Qed.

(** One turn of the loop, by what the line contributes. *)
Lemma loop_body_spec st line :
  loop_body JSON_parse JSON_stringify st line
  = mkLoop
      (loop_messages st ++ match entry_of JSON_parse line with Some e => [e] | None => [] end)
      (match metadata_of JSON_parse line with Some md => Some md | None => loop_metadata st end)
      (match entry_of JSON_parse line with
       | Some e => if is_system_event "error" e
                   then error_text JSON_stringify (details_of e) else loop_error st
       | None => loop_error st
       end).
Proof.
  destruct st as [msgs md err]. unfold loop_body, metadata_of, entry_of.
  cbn [loop_messages loop_metadata loop_error].
  destruct (JSON_parse line) as [e|]; [|by rewrite app_nil_r].
  assert (e = JNull \/ e <> JNull) as [->|Hnn] by (destruct e; (by left) || (by right)).
  { simpl. by rewrite app_nil_r. }
  rewrite (member_not_null e _ Hnn).
  destruct (is_str (opt_member (Some e) "type") "metadata"); [by rewrite app_nil_r|].
  destruct (is_entry_type _); [|by rewrite app_nil_r].
  destruct (is_system_event "error" e) eqn:E; [|done].
  by rewrite (system_event_data_object _ _ E).
Qed.

(** The loop variables when the loop ends. *)
Lemma run_loop_spec ls :
  run_loop JSON_parse JSON_stringify ls
  = mkLoop (entries JSON_parse ls) (last (metadata_lines JSON_parse ls))
           (last_error_text JSON_stringify (entries JSON_parse ls)).
Proof.
  induction ls as [|line ls IH] using rev_ind; [reflexivity|].
  unfold run_loop in *. rewrite fold_left_app. simpl. rewrite IH, loop_body_spec. simpl.
  unfold entries, metadata_lines, last_error_text, error_events.
  rewrite !omap_app. simpl. f_equal.
  - destruct (metadata_of JSON_parse line); [by rewrite last_snoc | by rewrite app_nil_r].
  - destruct (entry_of JSON_parse line) as [e|]; [|by rewrite app_nil_r].
    rewrite List.filter_app. simpl.
    destruct (is_system_event "error" e); [by rewrite last_snoc | by rewrite app_nil_r].
Qed.

Lemma some_completed_event msgs :
  Forall (fun e => exists fields, e = JObj fields) msgs ->
  some completed_event msgs = Return (existsb (is_system_event "completed") msgs).
Proof.
  induction 1 as [|e msgs [fields ->] _ IH]; [reflexivity|].
  simpl. unfold is_system_event at 1. simpl.
  destruct (_ && _); [done | exact IH].
Qed.

(** The status the function derives from the retained entries. *)
Lemma getSessionData_spec content :
  getSessionData JSON_parse JSON_stringify (Some content)
  = let msgs := entries JSON_parse (lines content) in
    match last (metadata_lines JSON_parse (lines content)) with
    | None => Throw "No metadata found in session file"
    | Some md =>
        Return (mkSession
          (opt_member (Some md) "session_id")
          (if truthy (last_error_text JSON_stringify msgs) then st_error
           else if existsb (is_system_event "completed") msgs then st_completed
           else st_active)
          (opt_member (Some md) "start_time")
          (match last msgs with
           | Some m => opt_member (Some m) "timestamp"
           | None => undefined
           end)
          msgs
          (last_error_text JSON_stringify msgs))
    end.
Proof.
  unfold getSessionData. rewrite run_loop_spec. simpl.
  destruct (last (metadata_lines JSON_parse (lines content))) as [md|] eqn:Hmd; [|done].
  assert (exists fields, md = JObj fields) as [fields ->].
  { apply last_Some_elem_of, list_elem_of_omap in Hmd as (line & _ & Hmd).
    by apply metadata_of_Some in Hmd as [_ ?]. }
  simpl. rewrite (some_completed_event _ (entries_objects _)).
  set (msgs := entries JSON_parse (lines content)).
  assert (match last msgs with
          | Some m => get (Some m) "timestamp"
          | None => Return undefined
          end
          = Return (match last msgs with
                    | Some m => opt_member (Some m) "timestamp"
                    | None => undefined
                    end)) as ->.
  { destruct (last msgs) as [m|] eqn:Hm; [|done].
    apply last_Some_elem_of in Hm.
    pose proof (entries_objects (lines content)) as Hobj.
    rewrite Forall_forall in Hobj. by destruct (Hobj m Hm) as [fs ->]. }
  by destruct (truthy _).
Qed.

(** *** Lines that do and do not reach [messages] *)

Lemma entry_lines_spec ls :
  forallb (is_entry_line JSON_parse) ls = true ->
  metadata_lines JSON_parse ls = []
  /\ List.map Some (entries JSON_parse ls) = List.map JSON_parse ls.
Proof.
  unfold metadata_lines, entries, is_entry_line.
  induction ls as [|line ls IH]; [done|]. simpl. intros H.
  apply andb_true_iff in H as [Hline Hls]. destruct (IH Hls) as [IH1 IH2].
  destruct (entry_of JSON_parse line) as [e|] eqn:He; [|done].
  apply entry_of_Some in He as (Hp & Hty & _).
  unfold metadata_of at 1. rewrite Hp, Hty. simpl.
  split; [exact IH1 | f_equal; exact IH2].
Qed.

Lemma metadata_line_spec line :
  is_metadata_line JSON_parse line = true ->
  entry_of JSON_parse line = None
  /\ exists md, metadata_of JSON_parse line = Some md.
Proof.
  unfold is_metadata_line, metadata_of, entry_of.
  destruct (JSON_parse line) as [e|]; [|done].
  destruct (is_str _ "metadata"); [eauto | done].
Qed.

Lemma malformed_line_spec line :
  JSON_parse line = None ->
  entry_of JSON_parse line = None /\ metadata_of JSON_parse line = None.
Proof. unfold entry_of, metadata_of. by intros ->. Qed.

(** C5. A log made of a metadata line, lines that parse as entries, and
    one last line that is not JSON is read with success; [messages] holds
    the values of the entry lines, as many as there are, in file order. *)
Theorem malformed_trailing_line_is_skipped content l1 meta l2 bad :
  lines content = (l1 ++ meta :: l2 ++ [bad])%list ->
  is_metadata_line JSON_parse meta = true ->
  forallb (is_entry_line JSON_parse) (l1 ++ l2) = true ->
  JSON_parse bad = None ->
  exists s,
    getSessionData JSON_parse JSON_stringify (Some content) = Return s
    /\ length (messages s) = length (l1 ++ l2)
    /\ List.map Some (messages s) = List.map JSON_parse (l1 ++ l2).
Proof.
  intros Hlines Hmeta Hentries Hbad.
  rewrite forallb_app in Hentries. apply andb_true_iff in Hentries as [H1 H2].
  destruct (entry_lines_spec l1 H1) as [M1 E1].
  destruct (entry_lines_spec l2 H2) as [M2 E2].
  destruct (metadata_line_spec meta Hmeta) as [Em [md Mm]].
  destruct (malformed_line_spec bad Hbad) as [Eb Mb].
  assert (metadata_lines JSON_parse (lines content) = [md]) as HM.
  { rewrite Hlines. unfold metadata_lines in *.
    rewrite omap_app. simpl. rewrite Mm, omap_app. simpl. by rewrite Mb, M1, M2. }
  assert (entries JSON_parse (lines content)
          = (entries JSON_parse l1 ++ entries JSON_parse l2)%list) as HE.
  { rewrite Hlines. unfold entries.
    rewrite omap_app. simpl. rewrite Em, omap_app. simpl. by rewrite Eb, app_nil_r. }
  rewrite getSessionData_spec. simpl. rewrite HM, HE. simpl.
  eexists. split; [reflexivity|]. simpl.
  assert (List.map Some (entries JSON_parse l1 ++ entries JSON_parse l2)
          = List.map JSON_parse (l1 ++ l2)) as Hmap
    by (by rewrite !List.map_app, E1, E2).
  split; [|exact Hmap].
  apply (f_equal (@length _)) in Hmap. by rewrite !List.length_map in Hmap.
Qed.

(** C10. When a log holds more than one metadata line, it is read with
    success; [id] and [startTime] are those of the last metadata line in
    file order, and no metadata object is among [messages]. *)
Theorem last_metadata_line_wins content md :
  (1 < length (metadata_lines JSON_parse (lines content)))%nat ->
  last (metadata_lines JSON_parse (lines content)) = Some md ->
  exists s,
    getSessionData JSON_parse JSON_stringify (Some content) = Return s
    /\ id s = opt_member (Some md) "session_id"
    /\ startTime s = opt_member (Some md) "start_time"
    /\ Forall (fun e => is_str (opt_member (Some e) "type") "metadata" = false) (messages s).
Proof.
  intros _ Hlast. rewrite getSessionData_spec. simpl. rewrite Hlast.
  eexists. split; [reflexivity|]. simpl. repeat split.
  apply Forall_forall. intros e He. apply list_elem_of_omap in He as (line & _ & He).
  by apply entry_of_Some in He as (_ & ? & _).
Qed.

(** *** The [error] field and the status *)


Hypothesis JSON_stringify_nonempty : forall j, JSON_stringify j <> EmptyString.

Lemma error_text_truthy (d : json) :
  truthy (error_text JSON_stringify (Some d)) = true.
Proof.
  unfold error_text, js_or.
  destruct (truthy (opt_member (Some d) "message")) eqn:E; [done|].
  simpl. destruct (String.eqb_spec (JSON_stringify d) EmptyString) as [H|H]; [|done].
  by apply JSON_stringify_nonempty in H.
Qed.

Lemma existsb_error_events msgs :
  existsb (is_system_event "error") msgs
  = match last (error_events msgs) with Some _ => true | None => false end.
Proof.
  unfold error_events. induction msgs as [|m msgs IH]; [done|]. simpl.
  destruct (is_system_event "error" m); simpl.
  - by rewrite last_cons; destruct (last _).
  - done.
Qed.

(** The precedence on the logs whose last error event carries
    [details]: the status is [error] if a retained [system_event] is of
    type [error]; otherwise [completed] if one is of type [completed];
    otherwise [active]. *)
Theorem status_error_then_completed_then_active content s :
  getSessionData JSON_parse JSON_stringify (Some content) = Return s ->
  (forall e, last (error_events (messages s)) = Some e -> details_of e <> undefined) ->
  status s
  = if existsb (is_system_event "error") (messages s) then st_error
    else if existsb (is_system_event "completed") (messages s) then st_completed
    else st_active.
Proof.
  rewrite getSessionData_spec. simpl.
  destruct (last (metadata_lines _ _)); [|done]. intros [= <-]. simpl.
  intros Hdetails. rewrite existsb_error_events. unfold last_error_text.
  destruct (last (error_events _)) as [e|]; [|done].
  destruct (details_of e) as [d|] eqn:Hd; [|by destruct (Hdetails e)].
  by rewrite error_text_truthy.
Qed.

End ReaderFacts.

(** *** The reader on the sample logs *)

Lemma malformed_trailing_line_is_skipped_witness :
  exists s,
    getSessionData TinyJSON.parse TinyJSON.stringify (Some log_partial) = Return s
    /\ length (messages s) = length ([hello_line] ++ [thinking_line])
    /\ List.map Some (messages s) = List.map TinyJSON.parse ([hello_line] ++ [thinking_line]).
Proof.
  apply (malformed_trailing_line_is_skipped TinyJSON.parse TinyJSON.stringify
           log_partial [hello_line] metadata_line [thinking_line] partial_line);
    vm_compute; reflexivity.
Defined.

Lemma last_metadata_line_wins_witness :
  exists s,
    getSessionData TinyJSON.parse TinyJSON.stringify (Some log_two_metadata) = Return s
    /\ id s = Some (JStr "s2")
    /\ startTime s = Some (JStr "2025-03-02T08:30:00Z")
    /\ Forall (fun e => is_str (opt_member (Some e) "type") "metadata" = false) (messages s).
Proof.
  apply (last_metadata_line_wins TinyJSON.parse TinyJSON.stringify log_two_metadata
           (JObj [("type", JStr "metadata"); ("session_id", JStr "s2");
                  ("start_time", JStr "2025-03-02T08:30:00Z")])).
  - vm_compute. lia.
  - vm_compute. reflexivity.
Defined.


(** Example B of the specification. *)
Lemma example_B :
  exists s,
    getSessionData TinyJSON.parse TinyJSON.stringify (Some log_B) = Return s
    /\ status s = st_error /\ error s = Some (JStr "boom").
Proof. eexists. split; [vm_compute; reflexivity|]. by split. Qed.


Lemma status_error_then_completed_then_active_witness :
  exists s,
    getSessionData TinyJSON.parse TinyJSON.stringify (Some log_error_and_completed) = Return s
    /\ existsb (is_system_event "completed") (messages s) = true
    /\ status s = st_error.
Proof.
  eexists. split; [vm_compute; reflexivity|].
  split; [vm_compute; reflexivity|].
  apply (status_error_then_completed_then_active TinyJSON.parse TinyJSON.stringify
           TinyJSONFacts.stringify_nonempty log_error_and_completed).
  - vm_compute. reflexivity.
  - intros e. vm_compute. intros [= <-]. discriminate.
Defined.

(** C6. The claim: the status is [error] if any retained [system_event]
    encodes an error detail, before [completed] and [active]. On a log
    whose error event with details [boom] is followed by an error event
    without [details], the retained entries hold both error events and the
    status is [active]: the second event has set the variable [error],
    which the status is derived from, back to [undefined]. *)
Lemma status_of_error_then_bare_error_is_active :
  exists s,
    getSessionData TinyJSON.parse TinyJSON.stringify (Some log_error_then_bare) = Return s
    /\ existsb (is_system_event "error") (messages s) = true
    /\ status s = st_active
    /\ status s <> st_error.
Proof.
  eexists. split; [vm_compute; reflexivity|].
  split; [vm_compute; reflexivity|].
  split; [vm_compute; reflexivity|].
  vm_compute. discriminate.
Qed.

(** *** Listing the sessions *)

Section ListingFacts.

Variable JSON_parse : string -> option json.
Variable JSON_stringify : json -> string.
Variable Date_getTime : jsval -> option Z.

Lemma sort_insert_perm {A : Type} (cmp : A -> A -> option Z) x l :
  Permutation (sort_insert cmp x l) (x :: l).
Proof.
  induction l as [|y l IH]; simpl; [done|].
  destruct (sorts_before cmp x y); [done|].
  rewrite IH. apply perm_swap.
Qed.

Lemma Array_sort_perm {A : Type} (cmp : A -> A -> option Z) l :
  Permutation (Array_sort cmp l) l.
Proof.
  induction l as [|x l IH]; simpl; [done|].
  rewrite sort_insert_perm. by constructor.
Qed.

Lemma sorts_before_true a b :
  Date_getTime (startTime a) <> None -> Date_getTime (startTime b) <> None ->
  sorts_before (by_start_time Date_getTime) a b = true -> no_earlier Date_getTime a b.
Proof.
  unfold sorts_before, by_start_time, no_earlier. intros Ha Hb.
  destruct (Date_getTime (startTime a)) as [ta|]; [|done].
  destruct (Date_getTime (startTime b)) as [tb|]; [|done].
  intros H. exists ta, tb. repeat split. lia.
Qed.

Lemma sorts_before_false a b :
  Date_getTime (startTime a) <> None -> Date_getTime (startTime b) <> None ->
  sorts_before (by_start_time Date_getTime) a b = false -> no_earlier Date_getTime b a.
Proof.
  unfold sorts_before, by_start_time, no_earlier. intros Ha Hb.
  destruct (Date_getTime (startTime a)) as [ta|]; [|done].
  destruct (Date_getTime (startTime b)) as [tb|]; [|done].
  intros H. exists tb, ta. repeat split. lia.
Qed.

Lemma no_earlier_trans a b c :
  no_earlier Date_getTime a b -> no_earlier Date_getTime b c -> no_earlier Date_getTime a c.
Proof.
  intros (ta & tb & Ha & Hb & Hab) (tb' & tc & Hb' & Hc & Hbc).
  exists ta, tc. repeat split; [done..|]. rewrite Hb in Hb'. injection Hb' as <-. lia.
Qed.

Lemma sort_insert_sorted x l :
  Date_getTime (startTime x) <> None ->
  Forall (fun s => Date_getTime (startTime s) <> None) l ->
  StronglySorted (no_earlier Date_getTime) l ->
  StronglySorted (no_earlier Date_getTime) (sort_insert (by_start_time Date_getTime) x l).
Proof.
  intros Hx Hl Hs. induction Hs as [|y l Hs IH Hy]; simpl.
  - repeat constructor.
  - apply Forall_cons in Hl as [Hvy Hl].
    destruct (sorts_before _ x y) eqn:E.
    + pose proof (sorts_before_true x y Hx Hvy E) as Hxy.
      constructor; [by constructor|]. constructor; [done|].
      eapply Forall_impl; [exact Hy|]. intros z Hyz. by eapply no_earlier_trans.
    + pose proof (sorts_before_false x y Hx Hvy E) as Hyx.
      constructor; [by apply IH|].
      eapply Permutation_Forall; [symmetry; apply sort_insert_perm|]. by constructor.
Qed.

Lemma Array_sort_sorted l :
  Forall (fun s => Date_getTime (startTime s) <> None) l ->
  StronglySorted (no_earlier Date_getTime) (Array_sort (by_start_time Date_getTime) l).
Proof.
  induction 1 as [|x l Hx Hl IH]; simpl; [constructor|].
  apply sort_insert_sorted; [done| |done].
  eapply Permutation_Forall; [symmetry; apply Array_sort_perm|done].
Qed.

(** C9, as the code has it. In every state of the logs directory in
    which the start times of the sessions read from it are valid dates,
    the result holds exactly the records of the session files that are
    read with success, whatever happens with the other files, ordered so
    that each record starts no earlier than the records after it. *)
Theorem getAllSessions_newest_first d :
  forallb (has_valid_start Date_getTime)
          (read_sessions JSON_parse JSON_stringify d
             (List.filter is_session_file (listed_files d))) = true ->
  StronglySorted (no_earlier Date_getTime)
                 (getAllSessions JSON_parse JSON_stringify Date_getTime d)
  /\ Permutation (getAllSessions JSON_parse JSON_stringify Date_getTime d)
                 (read_sessions JSON_parse JSON_stringify d
                    (List.filter is_session_file (listed_files d)))
  /\ (forall file s,
        In file (listed_files d) -> is_session_file file = true ->
        getSessionData JSON_parse JSON_stringify (readFile d file) = Return s ->
        In s (getAllSessions JSON_parse JSON_stringify Date_getTime d)).
Proof.
  intros Hvalid.
  assert (Forall (fun s => Date_getTime (startTime s) <> None)
            (read_sessions JSON_parse JSON_stringify d
               (List.filter is_session_file (listed_files d)))) as Hdates.
  { apply Forall_forall. intros s Hs. apply list_elem_of_In in Hs.
    rewrite forallb_forall in Hvalid. specialize (Hvalid s Hs).
    unfold has_valid_start in Hvalid. by destruct (Date_getTime (startTime s)). }
  assert (getAllSessions JSON_parse JSON_stringify Date_getTime d
          = Array_sort (by_start_time Date_getTime)
              (read_sessions JSON_parse JSON_stringify d
                 (List.filter is_session_file (listed_files d)))) as ->
    by (unfold getAllSessions, listed_files; by destruct (dir d)).
  split; [by apply Array_sort_sorted|]. split; [apply Array_sort_perm|].
  intros file s Hin Hsess Hread.
  eapply Permutation_in; [symmetry; apply Array_sort_perm|].
  apply list_elem_of_In, list_elem_of_omap. exists file. split.
  - apply list_elem_of_In, filter_In. by split.
  - by rewrite Hread.
Qed.

End ListingFacts.

Lemma getAllSessions_newest_first_witness :
  StronglySorted (no_earlier TinyJSON.epoch_ms)
    (getAllSessions TinyJSON.parse TinyJSON.stringify TinyJSON.epoch_ms logs_mixed).
Proof.
  refine (proj1 (getAllSessions_newest_first TinyJSON.parse TinyJSON.stringify
                   TinyJSON.epoch_ms logs_mixed _)).
  vm_compute. reflexivity.
Defined.

(** The listing of the second sample directory: the newer session first,
    the unreadable files and the foreign file left out. *)
Lemma getAllSessions_sample :
  List.map id
    (getAllSessions TinyJSON.parse TinyJSON.stringify TinyJSON.epoch_ms logs_mixed)
  = [Some (JStr "new"); Some (JStr "old")].
Proof. vm_compute. reflexivity. Qed.

(** C9, as the claim states it, fails on a directory with two sessions
    that start at the same instant: the first record of the result does
    not start later than the second. *)
Lemma getAllSessions_tie_is_not_strict :
  ~ Sorted (later TinyJSON.epoch_ms)
      (getAllSessions TinyJSON.parse TinyJSON.stringify TinyJSON.epoch_ms logs_with_tie).
Proof.
  assert (getAllSessions TinyJSON.parse TinyJSON.stringify TinyJSON.epoch_ms logs_with_tie
          = [mkSession (Some (JStr "a")) st_active (Some (JNum 1700000000000)) None [] None;
             mkSession (Some (JStr "b")) st_active (Some (JNum 1700000000000)) None [] None])
    as -> by (vm_compute; reflexivity).
  intros H. inversion H as [|? ? _ Hhd]; subst.
  inversion Hhd as [|? ? (ta & tb & Ha & Hb & Hlt)]; subst.
  vm_compute in Ha, Hb. injection Ha as <-. injection Hb as <-. lia.
Qed.

End SessionsSpec.

(** ** The job store over a history *)

Module JobsExtra.

Import Jobs JobStore Samples JSFacts.

Lemma map_Forall_alter_key {A : Type} (P : string -> A -> Prop) (f : A -> A) k (m : gmap string A) :
  (forall x, m !! k = Some x -> P k x -> P k (f x)) ->
  map_Forall P m -> map_Forall P (alter f k m).
Proof.
  intros Hf Hm k' x'. destruct (decide (k = k')) as [<-|Hne].
  - rewrite lookup_alter_eq. destruct (m !! k) as [x|] eqn:E; [|done].
    intros [= <-]. apply Hf; [done|]. by apply Hm.
  - rewrite lookup_alter_ne by done. apply Hm.
Qed.

Section Invariant.

(** A property of the records of a store that every write keeps. *)
Variable P : string -> JobStatus -> Prop.
Hypothesis P_workdir : forall k j d, P k j -> P k (set_workdir d j).
Hypothesis P_pid : forall k j p, p <> 0 -> P k j -> P k (set_pid p j).
Hypothesis P_completed : forall k j t, P k j -> P k (spread_completed t j).
Hypothesis P_failed : forall k j msg t, P k j -> P k (spread_failed msg t j).
Hypothesis P_cancelled :
  forall k j t, status j = running -> P k j -> P k (spread_cancelled t j).

Lemma reconcile_invariant os now k j : P k j -> P k (reconcile os now j).
Proof.
  intros H. unfold reconcile. case_decide; [|done].
  destruct (pid_truthy _); [|done]. destruct (isProcessRunning _ _); [done|].
  by apply P_completed.
Qed.

Lemma updateJobStatus_invariant os now id (jobs : Store) :
  map_Forall P jobs -> map_Forall P (fst (updateJobStatus os now id jobs)).
Proof.
  intros H. unfold updateJobStatus. destruct (jobs !! id) as [job|] eqn:E; [|done].
  simpl. apply map_Forall_insert_2; [|done]. apply reconcile_invariant. by apply H.
Qed.

Lemma exec_callback_invariant id err now (jobs : Store) :
  map_Forall P jobs -> map_Forall P (exec_callback id err now jobs).
Proof.
  intros H. unfold exec_callback.
  destruct err; apply map_Forall_alter_key; auto.
Qed.

Lemma DELETE_invariant id os now (jobs : Store) :
  map_Forall P jobs -> map_Forall P (snd (fst (DELETE id os now jobs))).
Proof.
  intros H. unfold DELETE. destruct (jobs !! id) as [job|] eqn:E; [|done].
  case_decide as Hrun; [|done]. destruct (pid_truthy _); [|done].
  pose proof (updateJobStatus_invariant os now id jobs H) as Hu.
  destruct (os _ SIGTERM); simpl.
  - apply map_Forall_insert_2; [|done]. apply P_cancelled; [done|]. by apply H.
  - destruct (updateJobStatus os now id jobs) as [jobs' tr]. by destruct (jobs' !! id).
  - destruct (updateJobStatus os now id jobs) as [jobs' tr]. by destruct (jobs' !! id).
Qed.

Lemma GET_invariant id os now (jobs : Store) :
  map_Forall P jobs -> map_Forall P (snd (fst (GET id os now jobs))).
Proof.
  intros H. unfold GET. destruct (jobs !! id) as [job|] eqn:E; [|done].
  pose proof (updateJobStatus_invariant os now id jobs H) as Hu.
  destruct (updateJobStatus os now id jobs) as [jobs' tr]. by destruct (jobs' !! id).
Qed.

Lemma GET_all_invariant os now (jobs : Store) :
  map_Forall P jobs -> map_Forall P (snd (GET_all os now jobs)).
Proof.
  intros H k j. unfold GET_all. simpl. rewrite lookup_fmap.
  destruct (jobs !! k) as [j0|] eqn:E; [|done]. intros [= <-].
  apply reconcile_invariant. by apply H.
Qed.

(** Requests and worker exits keep the property. *)
Lemma later_events_invariant op (jobs : Store) :
  is_submit op = false -> map_Forall P jobs -> map_Forall P (step jobs op).
Proof.
  destruct op; simpl; try discriminate; intros _.
  - apply exec_callback_invariant.
  - apply DELETE_invariant.
  - apply GET_invariant.
  - apply GET_all_invariant.
Qed.

(** The record a submission leaves when [runJob] has set it running. *)
Hypothesis P_fresh : forall k t_post t_run, P k (spread_running t_run (fresh k t_post)).

Lemma runJob_invariant id wd t_post t_run env (jobs : Store) :
  map_Forall P jobs ->
  map_Forall P (fst (runJob id wd t_run env (<[id := fresh id t_post]> jobs))).
Proof.
  intros H. unfold runJob. rewrite alter_insert_eq.
  destruct (temp_files_ok env); simpl; [|by apply map_Forall_insert_2].
  rewrite alter_insert_eq.
  destruct (exec_result env) as [child|]; simpl.
  - destruct (pid_truthy child) eqn:Hp; simpl.
    + rewrite alter_insert_eq. apply map_Forall_insert_2; [|done].
      apply P_pid; [|by apply P_workdir].
      destruct child as [n|]; [|done]. simpl in *. intros ->. discriminate.
    + apply map_Forall_insert_2; [|done]. by apply P_workdir.
  - apply map_Forall_insert_2; [|done]. by apply P_workdir.
Qed.

Lemma POST_invariant req rnd t_post t_run env (jobs : Store) :
  map_Forall P jobs -> map_Forall P (snd (POST req rnd t_post t_run env jobs)).
Proof.
  intros H. unfold POST. destruct req as [b|]; [|done].
  destruct (member (Some b) "agent_worker_task") as [task|]; [|done].
  destruct (negb _ || negb _); [done|].
  pose proof (runJob_invariant (generateUUID rnd) (opt_member (Some b) "workdir")
                t_post t_run env jobs H) as Hr.
  unfold fresh in Hr.
  destruct (runJob _ _ _ _ _) as [jobs2 [|]]; simpl in *; [|done].
  by destruct (jobs2 !! generateUUID rnd).
Qed.

Lemma step_invariant op (jobs : Store) :
  map_Forall P jobs -> map_Forall P (step jobs op).
Proof.
  destruct op; simpl.
  - apply POST_invariant.
  - apply exec_callback_invariant.
  - apply DELETE_invariant.
  - apply GET_invariant.
  - apply GET_all_invariant.
Qed.

Lemma run_invariant ops (jobs : Store) :
  map_Forall P jobs -> map_Forall P (run ops jobs).
Proof.
  unfold run. revert jobs. induction ops as [|op ops IH]; intros jobs H; [done|].
  simpl. apply IH. by apply step_invariant.
Qed.

End Invariant.

(** X1. Over any history, every record sits under its own [jobId]. *)
Theorem job_ids_match_keys ops (jobs : Store) :
  map_Forall keyed_by_id jobs -> map_Forall keyed_by_id (run ops jobs).
Proof. apply run_invariant; unfold keyed_by_id; simpl; auto. Qed.

Lemma job_ids_match_keys_witness : map_Forall keyed_by_id (run sample_history ∅).
Proof. apply job_ids_match_keys. apply map_Forall_empty. Defined.

(** X2. Over any history, no record of the store is [pending], and every
    record has its [startedAt]: a handler never returns with a record it
    has created still [pending], even when the launch throws. *)
Theorem no_record_stays_pending ops (jobs : Store) :
  map_Forall (fun _ => started) jobs -> map_Forall (fun _ => started) (run ops jobs).
Proof. apply run_invariant; unfold started; simpl; intuition discriminate. Qed.

Lemma no_record_stays_pending_witness :
  map_Forall (fun _ => started) (run sample_history ∅).
Proof. apply no_record_stays_pending. apply map_Forall_empty. Defined.

(** X3. Over any history, a record has a [completedAt] exactly when its
    status is [completed], [failed] or [cancelled]. *)
Theorem completedAt_marks_terminal ops (jobs : Store) :
  map_Forall (fun _ => completedAt_iff_terminal) jobs ->
  map_Forall (fun _ => completedAt_iff_terminal) (run ops jobs).
Proof.
  apply run_invariant; unfold completedAt_iff_terminal; simpl; done.
Qed.

Lemma completedAt_marks_terminal_witness :
  map_Forall (fun _ => completedAt_iff_terminal) (run sample_history ∅).
Proof. apply completedAt_marks_terminal. apply map_Forall_empty. Defined.

(** X4. Over any history, every [failed] record carries an [error]. *)
Theorem failed_records_carry_error ops (jobs : Store) :
  map_Forall (fun _ => failure_has_error) jobs ->
  map_Forall (fun _ => failure_has_error) (run ops jobs).
Proof. apply run_invariant; unfold failure_has_error; simpl; try done; auto. Qed.

Lemma failed_records_carry_error_witness :
  map_Forall (fun _ => failure_has_error) (run sample_history ∅).
Proof. apply failed_records_carry_error. apply map_Forall_empty. Defined.

(** *** Which records a handler touches *)

Lemma updateJobStatus_lookup os now id (jobs : Store) k :
  fst (updateJobStatus os now id jobs) !! k
  = if decide (id = k) then reconcile os now <$> jobs !! k else jobs !! k.
Proof.
  unfold updateJobStatus. destruct (jobs !! id) as [job|] eqn:E; simpl.
  - case_decide as Hk; [subst; by rewrite lookup_insert_eq, E | by rewrite lookup_insert_ne].
  - case_decide as Hk; [subst; by rewrite E | done].
Qed.

Lemma GET_store id os now (jobs : Store) :
  snd (fst (GET id os now jobs)) = fst (updateJobStatus os now id jobs).
Proof.
  unfold GET. destruct (jobs !! id) as [job|] eqn:E.
  - destruct (updateJobStatus os now id jobs) as [jobs' tr]. by destruct (jobs' !! id).
  - unfold updateJobStatus. by rewrite E.
Qed.

Lemma GET_lookup id os now (jobs : Store) k :
  snd (fst (GET id os now jobs)) !! k
  = if decide (id = k) then reconcile os now <$> jobs !! k else jobs !! k.
Proof. rewrite GET_store. apply updateJobStatus_lookup. Qed.

Lemma DELETE_lookup_other id os now (jobs : Store) k :
  id <> k -> snd (fst (DELETE id os now jobs)) !! k = jobs !! k.
Proof.
  intros Hk. unfold DELETE. destruct (jobs !! id) as [job|] eqn:E; [|done].
  case_decide; [|done]. destruct (pid_truthy _); [|done].
  pose proof (updateJobStatus_lookup os now id jobs k) as Hu.
  rewrite decide_False in Hu by done.
  destruct (os _ SIGTERM); simpl.
  - by rewrite lookup_insert_ne.
  - destruct (updateJobStatus os now id jobs) as [jobs' tr]. by destruct (jobs' !! id).
  - destruct (updateJobStatus os now id jobs) as [jobs' tr]. by destruct (jobs' !! id).
Qed.

Lemma reconcile_no_pid os now j :
  pid_truthy (pid j) = false -> reconcile os now j = j.
Proof. intros H. unfold reconcile. rewrite H. by case_decide. Qed.

Lemma step_dom_later op (jobs : Store) :
  is_submit op = false -> dom (step jobs op) = dom jobs.
Proof.
  intros Hop. apply set_eq. intros k. rewrite !elem_of_dom.
  destruct op; simpl; try discriminate.
  - unfold exec_callback. destruct err; rewrite lookup_alter; case_decide; subst;
      by rewrite ?fmap_is_Some.
  - destruct (decide (id = k)) as [->|Hk]; [|by rewrite DELETE_lookup_other].
    pose proof (updateJobStatus_lookup os now k jobs k) as Hu.
    rewrite decide_True in Hu by done.
    unfold DELETE. destruct (jobs !! k) as [job|] eqn:E; [|by simpl; rewrite E].
    simpl in Hu.
    assert (forall X : Prop, X -> (X <-> is_Some (Some job))) as Hyes
      by (intros X HX; split; eauto).
    case_decide; [|by simpl; rewrite E]. destruct (pid_truthy _); [|by simpl; rewrite E].
    destruct (os _ SIGTERM); simpl.
    + rewrite lookup_insert_eq. apply Hyes. eauto.
    + destruct (updateJobStatus os now k jobs) as [jobs' tr]. simpl in *.
      apply Hyes. rewrite Hu. simpl. rewrite Hu. eauto.
    + destruct (updateJobStatus os now k jobs) as [jobs' tr]. simpl in *.
      apply Hyes. rewrite Hu. simpl. rewrite Hu. eauto.
  - rewrite GET_lookup. case_decide; [by rewrite fmap_is_Some | done].
  - unfold GET_all. simpl. by rewrite lookup_fmap, fmap_is_Some.
Qed.

Lemma POST_store_cases req rnd t_post t_run env (jobs : Store) :
  snd (POST req rnd t_post t_run env jobs) = jobs
  \/ exists job, snd (POST req rnd t_post t_run env jobs) = <[generateUUID rnd := job]> jobs.
Proof.
  unfold POST. destruct req as [b|]; [|by left].
  destruct (member (Some b) "agent_worker_task") as [task|]; [|by left].
  destruct (negb _ || negb _); [by left|]. right.
  unfold runJob. rewrite alter_insert_eq.
  destruct (temp_files_ok env); [|simpl; eauto].
  rewrite alter_insert_eq.
  destruct (exec_result env) as [child|]; [|simpl; eauto].
  destruct (pid_truthy child); [rewrite alter_insert_eq|];
    rewrite lookup_insert_eq; simpl; eauto.
Qed.

(** X5. No event removes a record: the ids of the store only grow; an
    event other than a submission leaves them as they are, and a
    submission adds at most the id it has drawn. *)
Theorem records_are_never_removed op (jobs : Store) :
  dom jobs ⊆ dom (step jobs op)
  /\ (is_submit op = false -> dom (step jobs op) = dom jobs)
  /\ (forall req rnd t_post t_run env,
        op = Submit req rnd t_post t_run env ->
        dom (step jobs op) ⊆ {[generateUUID rnd]} ∪ dom jobs).
Proof.
  split; [|split].
  - destruct (is_submit op) eqn:Hop; [|by rewrite step_dom_later].
    destruct op; try discriminate. simpl.
    destruct (POST_store_cases req rnd t_post t_run env jobs) as [-> | [job ->]]; [done|].
    rewrite dom_insert_L. set_solver.
  - apply step_dom_later.
  - intros req rnd t_post t_run env ->. simpl.
    destruct (POST_store_cases req rnd t_post t_run env jobs) as [-> | [job ->]];
      [set_solver|]. by rewrite dom_insert_L.
Qed.

Lemma records_are_never_removed_witness :
  dom (step one_finished (Cancel id0 os_alive "t3")) = dom one_finished.
Proof.
  apply (records_are_never_removed (Cancel id0 os_alive "t3") one_finished).
  reflexivity.
Defined.

(** X6. Once a record is in the store, no request and no worker exit
    changes its [jobId], [createdAt], [startedAt], [pid] or [workdir];
    a submission that draws another id leaves the record as it is. *)
Theorem launch_fields_are_kept k (jobs : Store) j :
  jobs !! k = Some j ->
  (forall op, is_submit op = false ->
     exists j', step jobs op !! k = Some j' /\ same_launch j j')
  /\ (forall req rnd t_post t_run env,
        generateUUID rnd <> k ->
        step jobs (Submit req rnd t_post t_run env) !! k = Some j).
Proof.
  intros Hj. split.
  - intros op Hop.
    assert (is_Some (step jobs op !! k)) as [j' Hj'].
    { apply elem_of_dom. rewrite step_dom_later by done. apply elem_of_dom. eauto. }
    exists j'. split; [done|].
    pose proof (later_events_invariant (fun k' j' => k' = k -> same_launch j j')) as Hinv.
    eapply Hinv; [..|exact Hop| |exact Hj'|reflexivity];
      unfold same_launch; simpl; try done.
    intros k' j0 Hk' ->. rewrite Hj in Hk'. injection Hk' as <-. done.
  - intros req rnd t_post t_run env Hne. simpl.
    destruct (POST_store_cases req rnd t_post t_run env jobs) as [-> | [job ->]]; [done|].
    by rewrite lookup_insert_ne.
Qed.

Lemma launch_fields_are_kept_witness :
  exists j', step one_finished (WorkerExit id0 (Some "late") "t9") !! id0 = Some j'
             /\ same_launch finished_job j'.
Proof.
  apply (launch_fields_are_kept id0 one_finished finished_job); reflexivity.
Defined.

(** X7. A record that is [running] without a pid (its launch threw, or
    [exec] gave no pid) is changed by no cancel and no look at the jobs:
    only the exit callback of the worker moves it. *)
Theorem running_without_pid_is_stuck op k (jobs : Store) j :
  is_lookup_or_cancel op = true ->
  jobs !! k = Some j -> status j = running -> pid_truthy (pid j) = false ->
  step jobs op !! k = Some j.
Proof.
  intros Hop Hj Hs Hp. destruct op; simpl; try discriminate.
  - destruct (decide (id = k)) as [->|Hk]; [|by rewrite DELETE_lookup_other].
    unfold DELETE. rewrite Hj, Hp. by case_decide.
  - rewrite GET_lookup, Hj. simpl. rewrite reconcile_no_pid by done. by case_decide.
  - unfold GET_all. simpl. by rewrite lookup_fmap, Hj; simpl; rewrite reconcile_no_pid.
Qed.

Lemma running_without_pid_is_stuck_witness :
  step (<[id0 := stuck_job]> ∅) (Cancel id0 os_dead "t5") !! id0 = Some stuck_job.
Proof.
  apply running_without_pid_is_stuck; reflexivity.
Defined.

(** X8. When a submission has both fields but the temp files cannot be
    written, or [exec] throws, the answer is 500 and yet the record stays
    in the store: [running], [startedAt] set, no pid. *)
Theorem POST_failed_launch_leaves_running_record (b : json) rnd t_post t_run env
    (jobs : Store) :
  truthy (opt_member (Some b) "agent_worker_task") = true ->
  truthy (opt_member (Some b) "config") = true ->
  temp_files_ok env = false \/ exec_result env = None ->
  exists job,
    POST (Some b) rnd t_post t_run env jobs
    = (mkResponse 500 (ErrorBody "Failed to submit job"), <[generateUUID rnd := job]> jobs)
    /\ status job = running /\ startedAt job = Some t_run
    /\ pid job = None /\ completedAt job = None.
Proof.
  intros Htask Hconfig Hfail.
  assert (b <> JNull) as Hb by (intros ->; discriminate).
  unfold POST. rewrite (member_not_null b _ Hb), Htask, Hconfig. simpl.
  unfold runJob. rewrite alter_insert_eq.
  destruct (temp_files_ok env) eqn:Ht.
  - destruct Hfail as [|He]; [done|]. rewrite He, alter_insert_eq. eauto 10.
  - eauto 10.
Qed.

Lemma POST_failed_launch_leaves_running_record_witness :
  exists job,
    POST (Some submission_A) zero_draws "t0" "t1" env_read_only ∅
    = (mkResponse 500 (ErrorBody "Failed to submit job"), <[generateUUID zero_draws := job]> ∅)
    /\ status job = running /\ startedAt job = Some "t1"
    /\ pid job = None /\ completedAt job = None.
Proof.
  apply (POST_failed_launch_leaves_running_record submission_A);
    [reflexivity | reflexivity | left; reflexivity].
Defined.

(** *** Cancelling and looking at one job *)

(** X9. Cancelling a [running] job with a pid sends [SIGTERM] to that pid
    first. If the signal is delivered, the record becomes [cancelled] with
    [completedAt] the time of the request, and no probe is made. If
    [process.kill] throws, the cancel does what a look at the job does:
    same response, same store, the probe with signal [0] after the
    [SIGTERM]. *)
Theorem DELETE_running_job id os now (jobs : Store) job p :
  jobs !! id = Some job -> status job = running -> pid job = Some p -> p <> 0 ->
  (os p SIGTERM = Delivered ->
   DELETE id os now jobs
   = (mkResponse 200 (JobBody (spread_cancelled now job)),
      <[id := spread_cancelled now job]> jobs, [(p, SIGTERM)]))
  /\ (os p SIGTERM <> Delivered ->
      DELETE id os now jobs
      = (fst (fst (GET id os now jobs)), snd (fst (GET id os now jobs)),
         (p, SIGTERM) :: snd (GET id os now jobs))).
Proof.
  intros Hj Hs Hp Hp0.
  assert (pid_truthy (pid job) = true) as Ht.
  { rewrite Hp. simpl. by destruct (Z.eqb_spec p 0). }
  unfold DELETE, GET. rewrite Hj, decide_True, Ht, Hp by done. simpl. split.
  - by intros ->.
  - intros Hk. destruct (os p SIGTERM); [done|..];
      destruct (updateJobStatus os now id jobs) as [jobs' tr];
      by destruct (jobs' !! id).
Qed.

Lemma DELETE_running_job_witness :
  DELETE id0 os_alive "t5" (<[id0 := running_job]> ∅)
  = (mkResponse 200 (JobBody (spread_cancelled "t5" running_job)),
     <[id0 := spread_cancelled "t5" running_job]> (<[id0 := running_job]> ∅),
     [(4242, SIGTERM)]).
Proof.
  apply (DELETE_running_job id0 os_alive "t5" (<[id0 := running_job]> ∅) running_job 4242);
    (reflexivity || discriminate).
Defined.

(** X10. When [process.kill] throws on a cancel, the job is recorded as
    [completed] unless the probe with signal [0] is delivered: a process
    that refuses both signals with a permission error is taken for gone. *)
Theorem DELETE_kill_fails_marks_completed id os now (jobs : Store) job p :
  jobs !! id = Some job -> status job = running -> pid job = Some p -> p <> 0 ->
  os p SIGTERM <> Delivered -> os p SIG0 <> Delivered ->
  DELETE id os now jobs
  = (mkResponse 200 (JobBody (spread_completed now job)),
     <[id := spread_completed now job]> jobs, [(p, SIGTERM); (p, SIG0)]).
Proof.
  intros Hj Hs Hp Hp0 Hterm Hprobe.
  assert (pid_truthy (pid job) = true) as Ht.
  { rewrite Hp. simpl. by destruct (Z.eqb_spec p 0). }
  assert (reconcile os now job = spread_completed now job) as Hr.
  { unfold reconcile, isProcessRunning. rewrite decide_True, Ht, Hp by done. simpl.
    by destruct (os p SIG0). }
  assert (reconcile_trace job = [(p, SIG0)]) as Htr.
  { unfold reconcile_trace. by rewrite decide_True, Ht, Hp. }
  unfold DELETE. rewrite Hj, decide_True, Ht, Hp by done. simpl.
  unfold updateJobStatus. rewrite Hj, Hr, Htr, lookup_insert_eq.
  by destruct (os p SIGTERM).
Qed.

Lemma DELETE_kill_fails_marks_completed_witness :
  DELETE id0 os_foreign "t5" (<[id0 := running_job]> ∅)
  = (mkResponse 200 (JobBody (spread_completed "t5" running_job)),
     <[id0 := spread_completed "t5" running_job]> (<[id0 := running_job]> ∅),
     [(4242, SIGTERM); (4242, SIG0)]).
Proof.
  apply (DELETE_kill_fails_marks_completed id0 os_foreign "t5"
           (<[id0 := running_job]> ∅) running_job 4242);
    (reflexivity || discriminate).
Defined.

(** X11. A look at one job and a look at the list agree on that job: the
    record stored for it afterwards is the same; the look at one job
    leaves every other record as it is. *)
Theorem GET_agrees_with_GET_all id os now (jobs : Store) :
  snd (fst (GET id os now jobs)) !! id = snd (GET_all os now jobs) !! id
  /\ (forall k, k <> id -> snd (fst (GET id os now jobs)) !! k = jobs !! k).
Proof.
  split.
  - rewrite GET_lookup, decide_True by done. unfold GET_all. simpl. by rewrite lookup_fmap.
  - intros k Hk. by rewrite GET_lookup, decide_False.
Qed.

Lemma requests_keep_finished_record op k (jobs : Store) j :
  is_lookup_or_cancel op = true ->
  jobs !! k = Some j -> status j <> running ->
  step jobs op !! k = Some j.
Proof.
  intros Hop Hj Hs. destruct op; simpl; try discriminate.
  - destruct (decide (id = k)) as [->|Hk]; [|by rewrite DELETE_lookup_other].
    unfold DELETE. rewrite Hj. by rewrite decide_False.
  - rewrite GET_lookup, Hj. simpl. rewrite JobsSpec.reconcile_not_running by done.
    by case_decide.
  - unfold GET_all. simpl.
    by rewrite lookup_fmap, Hj; simpl; rewrite JobsSpec.reconcile_not_running.
Qed.

Lemma requests_keep_finished_record_run ops k (jobs : Store) j :
  forallb is_lookup_or_cancel ops = true ->
  jobs !! k = Some j -> status j <> running ->
  run ops jobs !! k = Some j.
Proof.
  unfold run. revert jobs. induction ops as [|op ops IH]; intros jobs Hops Hj Hs; [done|].
  simpl in *. apply andb_true_iff in Hops as [Hop Hops].
  apply IH; [done| |done]. by apply requests_keep_finished_record.
Qed.

(** X12. A look at a [running] job whose process is gone answers with the
    record [completed], [completedAt] the time of that look. After any
    number of further cancels and looks, with no worker exit and no
    submission in between, a look at the job still answers with that same
    record, at any time and whatever the process table, changes nothing
    and probes nothing. *)
Theorem reconciled_job_stays_completed id os now ops os' now' (jobs : Store) job :
  jobs !! id = Some job -> status job = running ->
  pid_truthy (pid job) = true -> isProcessRunning os (default 0 (pid job)) = false ->
  forallb is_lookup_or_cancel ops = true ->
  fst (GET id os now jobs)
  = (mkResponse 200 (JobBody (spread_completed now job)),
     <[id := spread_completed now job]> jobs)
  /\ GET id os' now' (run ops (snd (fst (GET id os now jobs))))
     = (mkResponse 200 (JobBody (spread_completed now job)),
        run ops (snd (fst (GET id os now jobs))), []).
Proof.
  intros Hj Hs Hp Hdead Hops.
  assert (fst (GET id os now jobs)
          = (mkResponse 200 (JobBody (spread_completed now job)),
             <[id := spread_completed now job]> jobs)) as H1.
  { unfold GET, updateJobStatus, reconcile. rewrite Hj, decide_True, Hp, Hdead by done.
    by rewrite lookup_insert_eq. }
  split; [done|]. rewrite H1. simpl.
  set (later := run ops (<[id := spread_completed now job]> jobs)).
  assert (later !! id = Some (spread_completed now job)) as Hlater.
  { apply requests_keep_finished_record_run; [done | apply lookup_insert_eq | done]. }
  unfold GET, updateJobStatus. rewrite Hlater.
  rewrite JobsSpec.reconcile_not_running, JobsSpec.reconcile_trace_not_running by done.
  by rewrite (insert_id later id _ Hlater), Hlater.
Qed.

Lemma reconciled_job_stays_completed_witness :
  GET id0 os_alive "t9"
    (run [QueryAll os_alive "t6"; Cancel id0 os_alive "t7"]
       (snd (fst (GET id0 os_dead "t5" (<[id0 := running_job]> ∅)))))
  = (mkResponse 200 (JobBody (spread_completed "t5" running_job)),
     run [QueryAll os_alive "t6"; Cancel id0 os_alive "t7"]
       (snd (fst (GET id0 os_dead "t5" (<[id0 := running_job]> ∅)))), []).
Proof.
  apply (reconciled_job_stays_completed id0 os_dead "t5"
           [QueryAll os_alive "t6"; Cancel id0 os_alive "t7"] os_alive "t9"
           (<[id0 := running_job]> ∅) running_job); reflexivity.
Defined.

(** *** Job ids *)

Lemma unhex2_hex2 b : unhex2 (hex2 b) = Some b.
Proof. destruct b; reflexivity. Qed.

Lemma hex2_inj b b' : hex2 b = hex2 b' -> b = b'.
Proof.
  intros H. apply (f_equal unhex2) in H. rewrite !unhex2_hex2 in H. by injection H.
Qed.

Lemma hex2_chars b : forallb is_hex_char (list_ascii_of_string (hex2 b)) = true.
Proof. destruct b; reflexivity. Qed.

Lemma concat_hex2_inj (l l' : list Byte.byte) :
  length l = length l' ->
  String.concat EmptyString (List.map hex2 l) = String.concat EmptyString (List.map hex2 l') ->
  l = l'.
Proof.
  revert l'. induction l as [|x l IH]; intros [|x' l'] Hlen; try discriminate; [done|].
  injection Hlen as Hlen. simpl.
  destruct l as [|y l], l' as [|y' l']; try discriminate.
  - intros H. apply hex2_inj in H. by subst.
  - simpl. unfold hex2 at 1 3. simpl. intros [= Ha Hb Hrest].
    assert (hex2 x = hex2 x') as Hx by (unfold hex2; by rewrite Ha, Hb).
    apply hex2_inj in Hx as ->. f_equal. by apply IH.
Qed.

(** X13. A job id is thirty-two characters, each one of [0-9a-f], and it
    determines the sixteen draws it was made from: two ids are equal only
    if all sixteen draws are. *)
Theorem generateUUID_is_hex_and_injective rnd rnd' :
  String.length (generateUUID rnd) = 32%nat
  /\ forallb is_hex_char (list_ascii_of_string (generateUUID rnd)) = true
  /\ (generateUUID rnd = generateUUID rnd' ->
      forall i, (i < 16)%nat -> rnd i = rnd' i).
Proof.
  split; [reflexivity|]. split.
  - unfold generateUUID. simpl.
    repeat (rewrite andb_true_iff; split); try reflexivity;
      match goal with
      | |- context [rnd ?i] =>
          pose proof (hex2_chars (rnd i)) as H; unfold hex2 in H; simpl in H;
          rewrite !andb_true_iff in H; tauto
      end.
  - assert (forall r, generateUUID r
                      = String.concat EmptyString (List.map hex2 (List.map r (seq 0 16))))
      as Hm by (intros r; unfold generateUUID; by rewrite List.map_map).
    rewrite (Hm rnd), (Hm rnd'). intros H i Hi.
    apply concat_hex2_inj in H; [|by rewrite !List.length_map].
    apply List.map_ext_in_iff with (a := i) in H; [exact H|].
    apply in_seq. lia.
Qed.

End JobsExtra.

(** ** More on the session log reader *)

Module SessionsExtra.

Import Sessions SessionLookup Samples JSFacts.

(** *** Splitting a file into lines *)

Lemma split_newline_nonempty s : split_newline s <> [].
Proof.
  destruct s as [|c s]; simpl; [done|].
  destruct (Ascii.eqb c "010"); [done|]. by destruct (split_newline s).
Qed.

Lemma split_newline_app a b :
  split_newline (a ++ String "010"%char b) = (split_newline a ++ split_newline b)%list.
Proof.
  induction a as [|c a IH]; simpl; [done|].
  destruct (Ascii.eqb c "010"); [by rewrite IH|].
  rewrite IH. pose proof (split_newline_nonempty a) as Hne.
  by destruct (split_newline a).
Qed.

Lemma split_newline_no_newline s :
  Forall (fun l => has_newline l = false) (split_newline s).
Proof.
  induction s as [|c s IH]; simpl; [by repeat constructor|].
  destruct (Ascii.eqb c "010") eqn:E; [by constructor|].
  destruct (split_newline s) as [|l ls].
  { constructor; [simpl; by rewrite E | constructor]. }
  apply Forall_cons in IH as [Hl Hls]. constructor; [|done]. simpl. by rewrite E, Hl.
Qed.

Lemma split_newline_single l : has_newline l = false -> split_newline l = [l].
Proof.
  induction l as [|c l IH]; simpl; [done|]. intros H.
  apply orb_false_iff in H as [Hc Hl]. by rewrite Hc, (IH Hl).
Qed.

(** X14. The lines of a file are never empty and hold no newline; the
    lines of two texts joined by a newline are the lines of the first
    followed by the lines of the second; a non-empty text without newline
    is its own single line. *)
Theorem lines_of_a_file a b l :
  Forall (fun x => x <> EmptyString /\ has_newline x = false) (lines a)
  /\ lines (a ++ String "010"%char b) = (lines a ++ lines b)%list
  /\ (l <> EmptyString -> has_newline l = false -> lines l = [l]).
Proof.
  unfold lines. split; [|split].
  - apply Forall_forall. intros x Hx. apply list_elem_of_In, filter_In in Hx as [Hin Hne].
    split.
    + intros ->. discriminate.
    + pose proof (split_newline_no_newline a) as H. rewrite Forall_forall in H.
      apply H. by apply list_elem_of_In.
  - by rewrite split_newline_app, List.filter_app.
  - intros Hne Hnl. rewrite (split_newline_single l Hnl). simpl.
    destruct (String.eqb_spec l EmptyString); [done|reflexivity].
Qed.

Lemma lines_of_a_file_witness : lines hello_line = [hello_line].
Proof.
  apply (lines_of_a_file EmptyString EmptyString hello_line); [discriminate | reflexivity].
Defined.

Section ReaderExtra.

Variable JSON_parse : string -> option json.
Variable JSON_stringify : json -> string.

Lemma metadata_lines_none ls :
  existsb (is_metadata_line JSON_parse) ls = false <-> metadata_lines JSON_parse ls = [].
Proof.
  unfold metadata_lines, is_metadata_line.
  induction ls as [|l ls IH]; simpl; [done|].
  destruct (metadata_of JSON_parse l); simpl; [split; discriminate | exact IH].
Qed.

(** X15. A log is read into a record exactly when one of its lines is a
    metadata line; otherwise the read throws
    [No metadata found in session file], whatever else the log holds. *)
Theorem record_needs_a_metadata_line content :
  (existsb (is_metadata_line JSON_parse) (lines content) = true ->
   exists s, getSessionData JSON_parse JSON_stringify (Some content) = Return s)
  /\ (existsb (is_metadata_line JSON_parse) (lines content) = false ->
      getSessionData JSON_parse JSON_stringify (Some content)
      = Throw "No metadata found in session file").
Proof.
  rewrite SessionsSpec.getSessionData_spec. simpl. split; intros H.
  - destruct (last _) as [md|] eqn:E; [eauto|].
    apply last_None, metadata_lines_none in E. congruence.
  - apply metadata_lines_none in H. by rewrite H.
Qed.

Lemma entries_sublist ls :
  sublist (List.map Some (entries JSON_parse ls)) (List.map JSON_parse ls).
Proof.
  unfold entries. induction ls as [|l ls IH]; simpl; [constructor|].
  destruct (entry_of JSON_parse l) as [e|] eqn:E.
  - apply SessionsSpec.entry_of_Some in E as (-> & _). simpl. by constructor.
  - by constructor.
Qed.

Lemma entries_metadata_length ls :
  (length (entries JSON_parse ls) + length (metadata_lines JSON_parse ls) <= length ls)%nat.
Proof.
  unfold entries, metadata_lines. induction ls as [|l ls IH]; [simpl; lia|].
  assert (entry_of JSON_parse l = None \/ metadata_of JSON_parse l = None) as Hone.
  { unfold entry_of, metadata_of. destruct (JSON_parse l) as [e|]; [|by left].
    destruct (is_str (opt_member (Some e) "type") "metadata"); [by left | by right]. }
  simpl in IH |- *.
  destruct Hone as [-> | ->];
    [destruct (metadata_of JSON_parse l) | destruct (entry_of JSON_parse l)];
    simpl; unfold omap in IH; lia.
Qed.

(** X16. The [messages] of a record are a subsequence of the parsed lines
    of the file, in file order; each of them is an object whose
    [entry_type] is one of the three kinds; and there are fewer of them
    than lines, the metadata lines not being among them. *)
Theorem messages_are_lines_of_the_file content s :
  getSessionData JSON_parse JSON_stringify (Some content) = Return s ->
  sublist (List.map Some (messages s)) (List.map JSON_parse (lines content))
  /\ Forall (fun m => (exists fields, m = JObj fields)
                      /\ is_entry_type (opt_member (Some m) "entry_type") = true)
            (messages s)
  /\ (length (messages s) < length (lines content))%nat.
Proof.
  rewrite SessionsSpec.getSessionData_spec. simpl.
  destruct (last (metadata_lines _ _)) as [md|] eqn:Hmd; [|done]. intros [= <-]. simpl.
  split; [apply entries_sublist|]. split.
  - apply Forall_forall. intros e He. apply list_elem_of_omap in He as (line & _ & He).
    split; [by apply SessionsSpec.entry_of_Some in He as (_ & _ & ?)|].
    unfold entry_of in He. destruct (JSON_parse line) as [e'|]; [|done].
    destruct (is_str _ "metadata"); [done|].
    destruct (is_entry_type _) eqn:E; [|done]. by injection He as <-.
  - pose proof (entries_metadata_length (lines content)) as Hlen.
    destruct (metadata_lines JSON_parse (lines content)); [done|]. simpl in Hlen. lia.
Qed.

(** X17. Reading a log that has grown: when lines are appended to a log
    that is read with success, the longer log is read with success too,
    and its [messages] are the earlier ones followed by the entries of
    the new lines; unless a new line is a metadata line, [id] and
    [startTime] stay. *)
Theorem appended_lines_extend_messages content content' extra s :
  lines content' = (lines content ++ extra)%list ->
  getSessionData JSON_parse JSON_stringify (Some content) = Return s ->
  exists s',
    getSessionData JSON_parse JSON_stringify (Some content') = Return s'
    /\ messages s' = (messages s ++ entries JSON_parse extra)%list
    /\ (existsb (is_metadata_line JSON_parse) extra = false ->
        id s' = id s /\ startTime s' = startTime s).
Proof.
  intros Hlines. rewrite !SessionsSpec.getSessionData_spec. simpl. rewrite Hlines.
  unfold metadata_lines, entries. rewrite !omap_app.
  destruct (last (omap (metadata_of JSON_parse) (lines content))) as [md|] eqn:Hmd; [|done].
  intros [= <-]. simpl.
  destruct (last (omap _ (lines content) ++ omap (metadata_of JSON_parse) extra))
    as [md'|] eqn:Hmd'.
  - eexists. split; [reflexivity|]. simpl. split; [done|].
    intros Hno. apply metadata_lines_none in Hno. unfold metadata_lines in Hno.
    rewrite Hno, app_nil_r, Hmd in Hmd'. by injection Hmd' as <-.
  - apply last_None, app_eq_nil in Hmd' as [Hnil _]. by rewrite Hnil in Hmd.
Qed.

End ReaderExtra.

Lemma messages_are_lines_of_the_file_witness :
  exists s,
    getSessionData TinyJSON.parse TinyJSON.stringify (Some log_partial) = Return s
    /\ (length (messages s) < length (lines log_partial))%nat.
Proof.
  eexists. split; [vm_compute; reflexivity|].
  apply (messages_are_lines_of_the_file TinyJSON.parse TinyJSON.stringify log_partial).
  vm_compute. reflexivity.
Defined.

Lemma appended_lines_extend_messages_witness :
  exists s',
    getSessionData TinyJSON.parse TinyJSON.stringify (Some log_two_errors) = Return s'
    /\ length (messages s') = 2%nat.
Proof.
  destruct (appended_lines_extend_messages TinyJSON.parse TinyJSON.stringify
              log_B log_two_errors [bang_line]
              (mkSession (Some (JStr "s1")) st_error (Some (JStr "2025-03-01T10:00:00Z"))
                 (Some (JStr "T"))
                 [JObj [("entry_type", JStr "system_event"); ("timestamp", JStr "T");
                        ("data", JObj [("type", JStr "error");
                                       ("details", JObj [("message", JStr "boom")])])]]
                 (Some (JStr "boom"))))
    as (s' & Hs' & Hm & _).
  - vm_compute. reflexivity.
  - vm_compute. reflexivity.
  - exists s'. split; [exact Hs'|]. rewrite Hm. vm_compute. reflexivity.
Defined.

(** *** Looking one session up *)

Section LookupFacts.

Variable JSON_parse : string -> option json.
Variable JSON_stringify : json -> string.
Variable Date_getTime : jsval -> option Z.

Lemma filter_none {A : Type} (f : A -> bool) l :
  forallb (fun x => negb (f x)) l = true -> List.filter f l = [].
Proof.
  induction l as [|x l IH]; simpl; [done|]. intros H.
  apply andb_true_iff in H as [Hx Hl]. destruct (f x); [done|]. by apply IH.
Qed.

(** X18. [getSession] reads the first file of the directory, in listing
    order, whose name contains the id and ends in [.jsonl], and that file
    only: when it cannot be read into a record the answer is [null], even
    if a later file of the listing would do. *)
Theorem getSession_reads_first_match d id pre file post :
  listed_files d = (pre ++ file :: post)%list ->
  forallb (fun f => negb (names_session id f)) pre = true ->
  names_session id file = true ->
  getSession JSON_parse JSON_stringify d id
  = match getSessionData JSON_parse JSON_stringify (readFile d file) with
    | Return s => Some s
    | Throw _ => None
    end.
Proof.
  unfold listed_files, getSession. intros Hfiles Hpre Hfile.
  destruct (dir d) as [| |files]; try by destruct pre.
  subst files. rewrite List.filter_app, (filter_none _ _ Hpre). simpl. by rewrite Hfile.
Qed.

(** X19. A session that [GET /api/sessions/[id]] returns comes from a
    file of the directory whose name contains the id and ends in
    [.jsonl]; when that file is named [session_*] and the start times of
    the sessions read from the directory are valid dates, the session is
    also in the list [GET /api/sessions] returns. *)
Theorem GET_session_comes_from_a_file d id s :
  GET JSON_parse JSON_stringify d id = mkResponse 200 (SessionBody s) ->
  exists file,
    In file (listed_files d)
    /\ includes file id = true /\ endsWith file ".jsonl" = true
    /\ getSessionData JSON_parse JSON_stringify (readFile d file) = Return s
    /\ (String.prefix "session_" file = true ->
        forallb (has_valid_start Date_getTime)
                (read_sessions JSON_parse JSON_stringify d
                   (List.filter is_session_file (listed_files d))) = true ->
        exists l,
          GET_all JSON_parse JSON_stringify Date_getTime d = mkResponse 200 (SessionsBody l)
          /\ In s l).
Proof.
  unfold GET, GET_all, getSession, listed_files, getAllSessions.
  destruct (dir d) as [| |files]; try discriminate.
  destruct (List.filter (names_session id) files) as [|file rest] eqn:Hf; [discriminate|].
  destruct (getSessionData _ _ (readFile d file)) as [s'|] eqn:Hread; [|discriminate].
  intros [= <-]. exists file.
  assert (In file (List.filter (names_session id) files)) as Hin by (rewrite Hf; by left).
  apply filter_In in Hin as [Hin Hname].
  apply andb_true_iff in Hname as [Hinc Hend].
  do 4 (split; [done|]). intros Hpre _. eexists. split; [reflexivity|].
  eapply Permutation_in; [symmetry; apply SessionsSpec.Array_sort_perm|].
  apply list_elem_of_In, list_elem_of_omap. exists file. split.
  - apply list_elem_of_In, filter_In. split; [done|].
    unfold is_session_file. rewrite Hpre. exact Hend.
  - by rewrite Hread.
Qed.

(** X20. When the directory is absent or unreadable, or when no name in
    it contains the id and ends in [.jsonl], [GET /api/sessions/[id]]
    answers 404. *)
Theorem GET_session_unknown_is_404 d id :
  forallb (fun f => negb (names_session id f)) (listed_files d) = true ->
  GET JSON_parse JSON_stringify d id = mkResponse 404 (ErrorBody "Session not found").
Proof.
  unfold GET, getSession, listed_files. intros H.
  destruct (dir d) as [| |files]; try done. by rewrite (filter_none _ _ H).
Qed.

End LookupFacts.

Lemma getSession_reads_first_match_witness :
  getSession TinyJSON.parse TinyJSON.stringify logs_shadowed "old" = None.
Proof.
  apply (getSession_reads_first_match TinyJSON.parse TinyJSON.stringify logs_shadowed
           "old" [] "notes_old.jsonl" ["session_old.jsonl"]); reflexivity.
Defined.

Lemma GET_session_comes_from_a_file_witness :
  exists file,
    In file (listed_files logs_mixed)
    /\ includes file "new" = true /\ endsWith file ".jsonl" = true
    /\ exists l,
         GET_all TinyJSON.parse TinyJSON.stringify TinyJSON.epoch_ms logs_mixed
         = mkResponse 200 (SessionsBody l)
         /\ In (mkSession (Some (JStr "new")) st_active (Some (JNum 1700000360000))
                  None [] None) l.
Proof.
  destruct (GET_session_comes_from_a_file TinyJSON.parse TinyJSON.stringify
              TinyJSON.epoch_ms logs_mixed "new"
              (mkSession (Some (JStr "new")) st_active (Some (JNum 1700000360000))
                 None [] None))
    as (file & Hin & Hinc & Hend & Hread & Hlist).
  - vm_compute. reflexivity.
  - exists file. do 3 (split; [done|]). apply Hlist.
    + unfold getSession in *. clear Hlist.
      destruct Hin as [<-|[<-|[<-|[<-|[<-|[]]]]]]; try reflexivity;
        vm_compute in Hinc; discriminate.
    + vm_compute. reflexivity.
Defined.

Lemma GET_session_unknown_is_404_witness :
  GET TinyJSON.parse TinyJSON.stringify logs_mixed "missing"
  = mkResponse 404 (ErrorBody "Session not found").
Proof. apply GET_session_unknown_is_404. vm_compute. reflexivity. Defined.

(** *** The first user message of a record *)

Lemma find_without_throw (f : json -> completion bool) (g : json -> bool) l :
  Forall (fun m => f m = Return (g m)) l -> find f l = Return (List.find g l).
Proof.
  induction 1 as [|m l Hm _ IH]; simpl; [done|].
  rewrite Hm. simpl. by destruct (g m).
Qed.

Lemma is_user_message_without_throw (m : json) :
  (exists fields, m = JObj fields) ->
  (is_str (opt_member (Some m) "entry_type") "message" = true ->
   exists fields, opt_member (Some m) "data" = Some (JObj fields)) ->
  is_user_message m = Return (is_user_entry m).
Proof.
  intros [fields ->] Hdata.
  unfold is_user_message, is_user_entry, get, opt_member, member in *. simpl in *.
  destruct (is_str (lookup_field "entry_type" fields) "message") eqn:E; [|done].
  destruct (Hdata eq_refl) as [dfields Hd]. by rewrite Hd.
Qed.

(** X22. On a record in which every entry is an object and every entry of
    kind [message] has a [data] that is an object, [getFirstUserMessage]
    returns the [data.content] of the first entry of kind [message] whose
    [data.role] is [user] when that content is truthy, and the text
    [No user message] when it is not or when there is no such entry; what
    it returns is always truthy. *)
Theorem getFirstUserMessage_returns_text (s : Session) :
  Forall (fun m => (exists fields, m = JObj fields)
                   /\ (is_str (opt_member (Some m) "entry_type") "message" = true ->
                       exists fields, opt_member (Some m) "data" = Some (JObj fields)))
         (messages s) ->
  getFirstUserMessage s
  = Return (if truthy (first_user_content (messages s))
            then first_user_content (messages s)
            else Some (JStr "No user message"))
  /\ truthy (if truthy (first_user_content (messages s))
             then first_user_content (messages s)
             else Some (JStr "No user message")) = true.
Proof.
  intros Hall. split; [|by destruct (truthy (first_user_content (messages s))) eqn:E].
  unfold getFirstUserMessage, first_user_content.
  rewrite (find_without_throw is_user_message is_user_entry).
  2:{ eapply Forall_impl; [exact Hall|]. intros m [Hobj Hdata].
      by apply is_user_message_without_throw. }
  simpl. destruct (List.find is_user_entry (messages s)) as [m|] eqn:Hfind; [|done].
  apply List.find_some in Hfind as [Hin Huser].
  rewrite Forall_forall in Hall. apply list_elem_of_In in Hin.
  destruct (Hall m Hin) as [[fields ->] Hdata].
  apply andb_true_iff in Huser as [Hty _].
  destruct (Hdata Hty) as [dfields Hd].
  unfold get, opt_member, member in *. simpl in *. by rewrite Hd.
Qed.

Lemma getFirstUserMessage_returns_text_witness :
  getFirstUserMessage
    (mkSession (Some (JStr "s1")) st_active undefined undefined
       [JObj [("entry_type", JStr "thinking"); ("data", JObj [("content", JStr "hm")])];
        JObj [("entry_type", JStr "message");
              ("data", JObj [("role", JStr "user"); ("content", JStr "hello")])];
        JObj [("entry_type", JStr "message");
              ("data", JObj [("role", JStr "user"); ("content", JStr "again")])]]
       undefined)
  = Return (Some (JStr "hello")).
Proof.
  apply getFirstUserMessage_returns_text. simpl.
  repeat (constructor; [split; [eauto | intros _; simpl; eauto] |]).
  constructor.
Defined.

(** X23. The reader keeps an entry of kind [message] that has no [data];
    when such an entry is the first of a record, [getFirstUserMessage]
    throws a [TypeError] on that record. *)
Theorem getFirstUserMessage_throws_without_data (s : Session) m rest :
  messages s = m :: rest ->
  is_str (opt_member (Some m) "entry_type") "message" = true ->
  opt_member (Some m) "data" = undefined \/ opt_member (Some m) "data" = Some JNull ->
  getFirstUserMessage s = Throw "TypeError".
Proof.
  intros Hm Hty Hdata. unfold getFirstUserMessage. rewrite Hm.
  apply opt_member_is_str_object in Hty as Hobj. destruct Hobj as [fields ->].
  unfold find, is_user_message, get, opt_member, member in *. simpl in *. rewrite Hty.
  by destruct Hdata as [-> | ->].
Qed.

Lemma getFirstUserMessage_throws_without_data_witness :
  exists s,
    getSessionData TinyJSON.parse TinyJSON.stringify (Some log_bare_message) = Return s
    /\ getFirstUserMessage s = Throw "TypeError".
Proof.
  eexists. split; [vm_compute; reflexivity|].
  eapply getFirstUserMessage_throws_without_data;
    [reflexivity | reflexivity | left; reflexivity].
Defined.

End SessionsExtra.

(** ** The configuration files of the project root *)

Module ConfigsExtra.

Import Sessions SessionLookup Configs.

Lemma rev_app_rev_app s t u :
  String.rev_app (String.rev_app s t) u = String.rev_app t (s ++ u).
Proof.
  revert t u. induction s as [|a s IH]; intros t u; simpl; [done|]. by rewrite IH.
Qed.

Lemma append_empty_r s : s ++ EmptyString = s.
Proof.
  induction s as [|a s IH]; [done|].
  change (String a (s ++ EmptyString) = String a s). by rewrite IH.
Qed.

Lemma rev_rev s : String.rev (String.rev s) = s.
Proof. unfold String.rev. by rewrite rev_app_rev_app, append_empty_r. Qed.

Lemma has_slash_rev_app s t :
  has_slash (String.rev_app s t) = has_slash s || has_slash t.
Proof.
  revert t. induction s as [|a s IH]; intros t; simpl; [done|].
  rewrite IH. simpl. destruct (Ascii.eqb a "/"), (has_slash s); simpl; try done.
  all: by rewrite ?orb_true_r.
Qed.

Lemma has_slash_take_segment s : has_slash (take_segment s) = false.
Proof.
  induction s as [|a s IH]; simpl; [done|].
  destruct (Ascii.eqb a "/") eqn:E; simpl; [done|]. by rewrite E.
Qed.

Lemma basename_no_slash p : has_slash (basename p) = false.
Proof.
  unfold basename, String.rev. rewrite has_slash_rev_app, has_slash_take_segment. done.
Qed.

Lemma prefix_cons_cons a x b r :
  String.prefix (String a x) (String b r)
  = if ascii_dec a b then String.prefix x r else false.
Proof. reflexivity. Qed.

Lemma prefix_take_segment x r :
  has_slash x = false -> String.prefix x r = true ->
  String.prefix x (take_segment r) = true.
Proof.
  revert r. induction x as [|a x IH]; intros r Hx Hp; [by destruct (take_segment r)|].
  destruct r as [|b r]; [done|]. rewrite prefix_cons_cons in Hp.
  destruct (ascii_dec a b) as [<-|]; [|done].
  simpl in Hx. apply orb_false_iff in Hx as [Ha Hx].
  cbn [take_segment]. rewrite Ha, prefix_cons_cons.
  destruct (ascii_dec a a); [by apply IH | done].
Qed.

Lemma prefix_drop_slashes a x r :
  Ascii.eqb a "/" = false -> String.prefix (String a x) r = true -> drop_slashes r = r.
Proof.
  intros Ha Hp. destruct r as [|b r]; [done|]. rewrite prefix_cons_cons in Hp.
  destruct (ascii_dec a b) as [<-|]; [|done]. cbn [drop_slashes]. by rewrite Ha.
Qed.

Lemma basename_keeps_json p :
  endsWith p ".json" = true -> endsWith (basename p) ".json" = true.
Proof.
  unfold endsWith, basename. rewrite rev_rev.
  change (String.rev ".json") with "nosj.". intros H.
  rewrite (prefix_drop_slashes "n" "osj." (String.rev p) eq_refl H).
  by apply prefix_take_segment.
Qed.

Section FileFacts.

Variable JSON_parse : string -> option json.

(** X24. [GET /api/configs/[filename]] looks at no file when the name
    asked for does not end in [.json], and answers 400; otherwise the one
    name it looks at under the project root is the base name of what was
    asked for: it holds no slash and ends in [.json], so the handler
    never leaves the project root, whatever directories the request
    names. *)
Theorem GET_file_stays_in_root root filename :
  (endsWith filename ".json" = false ->
   GET_file JSON_parse root filename
   = (mkResponse 400 (ErrorBody "Invalid file type. Only JSON files are allowed."), []))
  /\ Forall (fun name => name = basename filename
                         /\ has_slash name = false /\ endsWith name ".json" = true)
            (snd (GET_file JSON_parse root filename)).
Proof.
  unfold GET_file. destruct (endsWith filename ".json") eqn:E; simpl.
  - split; [discriminate|].
    assert (basename filename = basename filename
            /\ has_slash (basename filename) = false
            /\ endsWith (basename filename) ".json" = true) as H
      by (repeat split; [apply basename_no_slash | by apply basename_keeps_json]).
    destruct (root_file root (basename filename)) as [[content|]|]; simpl;
      [destruct (JSON_parse content)|..]; simpl; (constructor; [exact H | constructor]).
  - split; [done | constructor].
Qed.

(** What [GET /api/configs/[filename]] answers by the state of the
    file: 404 when it is not in the project root, 400 when its content is
    not JSON, 200 with the parsed content otherwise. *)
Theorem GET_file_answers root filename :
  endsWith filename ".json" = true ->
  (root_file root (basename filename) = None ->
   code (fst (GET_file JSON_parse root filename)) = 404%nat)
  /\ (forall content,
        root_file root (basename filename) = Some (Some content) ->
        fst (GET_file JSON_parse root filename)
        = match JSON_parse content with
          | Some j => mkResponse 200 (JSONBody j)
          | None => mkResponse 400 (ErrorBody "File is not valid JSON")
          end).
Proof.
  intros E. unfold GET_file. rewrite E. simpl. split.
  - by intros ->.
  - intros content ->. by destruct (JSON_parse content).
Qed.

End FileFacts.

Lemma includes_prefix_of_needle s a b :
  includes s (a ++ b) = true -> includes s a = true.
Proof.
  assert (forall t, String.prefix (a ++ b) t = true -> String.prefix a t = true) as Hp.
  { induction a as [|c a IH]; intros t; [by destruct t|].
    destruct t as [|c' t]; [done|].
    change (String c a ++ b) with (String c (a ++ b)). rewrite !prefix_cons_cons.
    destruct (ascii_dec c c'); [apply IH | done]. }
  induction s as [|c s IH]; cbn [includes].
  - rewrite !orb_false_r. apply Hp.
  - intros H. apply orb_true_iff in H as [H|H]; apply orb_true_iff; [left | right]; auto.
Qed.

(** X25. The two lists of [GET /api/configs] are taken from the listing
    of the project root in its order; every name in them ends in [.json];
    no name is in both; and a name that contains [agent_worker] is never
    among the config files, even when it contains [config] too. *)
Theorem GET_configs_lists root files :
  root_listing root = Some files ->
  exists tasks configs,
    GET root = mkResponse 200 (ListsBody tasks configs)
    /\ sublist tasks files /\ sublist configs files
    /\ Forall (fun f => endsWith f ".json" = true) (tasks ++ configs)
    /\ (forall f, In f tasks -> ~ In f configs)
    /\ (forall f, includes f "agent_worker" = true -> ~ In f configs).
Proof.
  intros Hfiles. unfold GET. rewrite Hfiles.
  exists (List.filter is_task_file files), (List.filter is_config_file files).
  split; [done|].
  assert (forall (f : string -> bool) l, sublist (List.filter f l) l) as Hsub.
  { intros f l. induction l as [|x l IH]; simpl; [constructor|].
    destruct (f x); by constructor. }
  split; [apply Hsub|]. split; [apply Hsub|].
  assert (forall f, includes f "agent_worker" = true ->
                    ~ In f (List.filter is_config_file files)) as Hnot.
  { intros f Hinc Hin. apply filter_In in Hin as [_ Hc]. unfold is_config_file in Hc.
    rewrite Hinc in Hc. simpl in Hc. by rewrite andb_false_r in Hc. }
  split; [|split; [|exact Hnot]].
  - apply Forall_app. split; apply Forall_forall; intros f Hf;
      apply list_elem_of_In, filter_In in Hf as [_ Hf].
    + unfold is_task_file in Hf. by apply andb_true_iff in Hf as [_ ?].
    + unfold is_config_file in Hf.
      apply andb_true_iff in Hf as [Hf _]. by apply andb_true_iff in Hf as [_ ?].
  - intros f Hin. apply Hnot. apply filter_In in Hin as [_ Ht].
    unfold is_task_file in Ht. apply andb_true_iff in Ht as [Ht _].
    by apply (includes_prefix_of_needle f "agent_worker" "_task").
Qed.

Lemma GET_file_answers_witness :
  fst (GET_file TinyJSON.parse sample_root "../secrets/config.json")
  = mkResponse 200 (JSONBody (JObj [])).
Proof.
  exact (proj2 (GET_file_answers TinyJSON.parse sample_root "../secrets/config.json"
                  eq_refl) "{}" eq_refl).
Defined.

Lemma GET_configs_lists_witness :
  exists tasks configs,
    GET sample_root = mkResponse 200 (ListsBody tasks configs)
    /\ sublist tasks ["agent_worker_task.json"; "config.json"; "agent_worker_config.json";
                      "README.md"; "my_config.json"].
Proof.
  destruct (GET_configs_lists sample_root
              ["agent_worker_task.json"; "config.json"; "agent_worker_config.json";
               "README.md"; "my_config.json"] eq_refl)
    as (tasks & configs & HG & Hsub & _).
  exists tasks, configs. by split.
Defined.

End ConfigsExtra.
